(** * browsepy text_digest plugin: the task-status poller and its table row

    A shallow embedding of the browser script of
    [src/browsepy/plugin/text_digest/README.md] (functions [getTaskRow],
    [getTaskLoadBtn], [getTaskStatusCell], [getTaskResultCell],
    [disableTaskLoadBtn], [enableTaskLoadBtn], [registerFileTransformation],
    [fetchTaskStatus], [loadTaskStatus]).

    The script is event driven.  A call runs to completion, mutating the
    document, and leaves work behind: fetches that have not settled yet and
    timers that have not fired yet.  The model keeps those two queues in the
    world next to the document; the event loop picks one entry, and runs the
    promise chain (or the timer callback) registered for it.

    Conventions of the model:
    - an element whose id starts with [ct-] is a table row, as the JSDoc of
      [getTaskRow] says;
    - the fields of a task record are strings, [task_result] a string or
      [null], as the status endpoint sends them; a JSON body of any other
      shape is [JsonOther];
    - the [.then] and [.catch] callbacks of one settled fetch run back to
      back, as one step of the loop;
    - every effect (request, timer, assignment, console line) is appended to
      a trace, so that the order of effects can be stated. *)

From Stdlib Require Import ZArith Lia.
From stdpp Require Import gmap strings list.

Local Open Scope Z_scope.
Local Open Scope string_scope.
Local Open Scope list_scope.

(** ** The document *)

Module Dom.

(** A child node of a cell.  [disabled] is the truth value of the node's
    [disabled] property (absent on a node that is no form control: falsy). *)
Record node := Node { nodeName : string; disabled : bool }.

Record cell := Cell { innerText : string; firstChild : option node }.

(** [HTMLTableRowElement]: only [cells] is read by the script. *)
Record row := Row { cells : list cell }.

(** Elements are mutable objects shared through the document, so the
    script's variables hold references: a row is named by its element id,
    a cell by its row and its index in [row.cells], and the first child of
    a cell by that cell. *)
Abbreviation row_ref := string (only parsing).
Abbreviation cell_ref := (string * nat)%type (only parsing).
Abbreviation node_ref := (string * nat)%type (only parsing).

Definition text_node : node := Node "#text" false.

(** [cell.innerText = text]: the children are replaced by the text. *)
Definition set_innerText (text : string) (c : cell) : cell :=
  Cell text (match text with EmptyString => None | String _ _ => Some text_node end).

(** [cell.firstChild.disabled = b] *)
Definition set_disabled (b : bool) (c : cell) : cell :=
  Cell (innerText c) ((fun n => Node (nodeName n) b) <$> firstChild c).

Definition update_cell (f : cell -> cell) (ref : cell_ref)
    (d : gmap string row) : gmap string row :=
  alter (fun r => Row (alter f ref.2 (cells r))) ref.1 d.

End Dom.
Import Dom.

(** ** Values, responses, effects *)

Inductive exn :=
  | Error (message : string)
  | TypeError (message : string)
  | SyntaxError (message : string).

(** [res.data] of [GET /digest/task/{id}]. [task_result] is a string or
    [null]. *)
Record task_record := TaskRecord {
  task_id : string;
  task_name : string;
  task_status : string;
  task_result : option string
}.

(** A parsed JSON body: one that carries a task record under [data], or any
    other JSON value (no [data] to destructure). *)
Inductive json :=
  | JsonTask (data : task_record)
  | JsonOther.

(** [body = None]: the body is not JSON and [response.json()] rejects. *)
Record response := Response {
  status : Z;
  statusText : string;
  body : option json
}.

(** How a [fetch] settles. *)
Inductive fetch_result :=
  | Rejected (reason : exn)
  | Fulfilled (r : response).

Inductive jsval :=
  | JUndefined
  | JNull
  | JString (s : string)
  | JExn (e : exn)
  | JParsed (j : json).

Definition of_nullable (o : option string) : jsval :=
  match o with Some s => JString s | None => JNull end.

(** Assigning to [innerText] turns [null] into the empty string. *)
Definition to_innerText (o : option string) : string :=
  match o with Some s => s | None => "" end.

(** A pending promise chain, with the [brokerId] its callbacks close over. *)
Inductive request :=
  | ReqStatus (brokerId : string)
  | ReqRegister (brokerId : string).

(** A pending [setTimeout] callback of [fetchTaskStatus], with the variables
    it closes over. *)
Record timer := Timer { delay : Z; timer_task_id : string; timer_task_name : string }.

Inductive effect :=
  | Fetch (method url : string)
  | SetTimeout (ms : Z) (task : string)
  | SetDisabled (ref : node_ref) (b : bool)
  | SetInnerText (ref : cell_ref) (text : string)
  | ConsoleLog (args : list jsval)
  | ConsoleError (args : list jsval).

Record world := World {
  doc : gmap string row;
  inflight : list request;
  timers : list timer;
  trace : list effect          (* oldest first *)
}.

(** ** Statements that may throw *)

Inductive result (A : Type) :=
  | Ok (a : A) (w : world)
  | Throw (e : exn) (w : world).
Arguments Ok {A} a w.
Arguments Throw {A} e w.

Definition M (A : Type) : Type := world -> result A.

Definition ret {A} (a : A) : M A := fun w => Ok a w.

Definition bind {A B} (m : M A) (k : A -> M B) : M B := fun w =>
  match m w with
  | Ok a w' => k a w'
  | Throw e w' => Throw e w'
  end.

Definition throw {A} (e : exn) : M A := fun w => Throw e w.

(** [p.catch(handler)] *)
Definition catch {A} (m : M A) (handler : exn -> M A) : M A := fun w =>
  match m w with
  | Ok a w' => Ok a w'
  | Throw e w' => handler e w'
  end.

Declare Scope js_scope.
Delimit Scope js_scope with js.
Notation "x <- m ;; k" := (bind m (fun x => k))
  (at level 100, m at next level, right associativity) : js_scope.
Notation "m ;; k" := (bind m (fun _ => k))
  (at level 100, right associativity) : js_scope.
Local Open Scope js_scope.

(** The world a statement leaves behind; an exception nobody catches is an
    unhandled rejection and changes nothing more. *)
Definition exec {A} (m : M A) (w : world) : world :=
  match m w with
  | Ok _ w' => w'
  | Throw _ w' => w'
  end.

Definition emit (e : effect) (w : world) : world :=
  World (doc w) (inflight w) (timers w) (trace w ++ [e]).

(** ** Primitives of the platform *)

Definition console_log (args : list jsval) : M unit := fun w =>
  Ok tt (emit (ConsoleLog args) w).

Definition console_error (args : list jsval) : M unit := fun w =>
  Ok tt (emit (ConsoleError args) w).

(** [fetch(url, {method})]: the request leaves, its promise chain waits. *)
Definition fetch (method url : string) (chain : request) : M unit := fun w =>
  Ok tt (World (doc w) (inflight w ++ [chain]) (timers w) (trace w ++ [Fetch method url])).

Definition setTimeout (t : timer) : M unit := fun w =>
  Ok tt (World (doc w) (inflight w) (timers w ++ [t])
           (trace w ++ [SetTimeout (delay t) (timer_task_id t)])).

(** [document.getElementById(id)] *)
Definition getElementById (id : string) : M (option row_ref) := fun w =>
  Ok (match doc w !! id with Some _ => Some id | None => None end) w.

(** [row.cells]; reading a property of [null] throws. *)
Definition row_cells (row : option row_ref) : M (list cell) := fun w =>
  match row with
  | None => Throw (TypeError "Cannot read properties of null (reading 'cells')") w
  | Some id => Ok (match doc w !! id with Some r => cells r | None => [] end) w
  end.

Definition assign_disabled (btn : node_ref) (b : bool) : M unit := fun w =>
  Ok tt (World (update_cell (set_disabled b) btn (doc w)) (inflight w) (timers w)
           (trace w ++ [SetDisabled btn b])).

Definition assign_innerText (c : cell_ref) (text : string) : M unit := fun w =>
  Ok tt (World (update_cell (set_innerText text) c (doc w)) (inflight w) (timers w)
           (trace w ++ [SetInnerText c text])).

(** The first [.then] sees the response only if the fetch was fulfilled. *)
Definition settle (fr : fetch_result) : M response :=
  match fr with
  | Rejected reason => throw reason
  | Fulfilled r => ret r
  end.

(** [response.json()] *)
Definition response_json (r : response) : M json :=
  match body r with
  | Some j => ret j
  | None => throw (SyntaxError "Unexpected token")
  end.

(** ** The script *)

Definition getTaskRow (brokerId : string) : M (option row_ref) :=
  let rowId := "ct-" +:+ brokerId in
  getElementById rowId.

Definition getTaskLoadBtn (row : option row_ref) : M (option node_ref) :=
  cs <- row_cells row ;;
  ret (match row, cs !! 3%nat with
       | Some id, Some cell =>
           match firstChild cell with Some _ => Some (id, 3%nat) | None => None end
       | _, _ => None
       end).

Definition getTaskStatusCell (row : option row_ref) : M (option cell_ref) :=
  cs <- row_cells row ;;
  ret (match row, cs !! 1%nat with
       | Some id, Some _ => Some (id, 1%nat)
       | _, _ => None
       end).

Definition getTaskResultCell (row : option row_ref) : M (option cell_ref) :=
  cs <- row_cells row ;;
  ret (match row, cs !! 4%nat with
       | Some id, Some _ => Some (id, 4%nat)
       | _, _ => None
       end).

Definition disableTaskLoadBtn (brokerId : string) : M unit :=
  row <- getTaskRow brokerId ;;
  btn <- match row with Some _ => getTaskLoadBtn row | None => ret None end ;;
  match btn with
  | Some b => assign_disabled b true
  | None => ret tt
  end.

Definition enableTaskLoadBtn (brokerId : string) : M unit :=
  row <- getTaskRow brokerId ;;
  btn <- match row with Some _ => getTaskLoadBtn row | None => ret None end ;;
  match btn with
  | Some b => assign_disabled b false
  | None => ret tt
  end.

(** The synchronous part of [fetchTaskStatus]: the request is issued and the
    promise chain is left waiting. *)
Definition fetchTaskStatus (brokerId : string) : M unit :=
  fetch "GET" ("/digest/task/" +:+ brokerId) (ReqStatus brokerId).

(** The synchronous part of [registerFileTransformation]. *)
Definition registerFileTransformation (brokerId : string) : M unit :=
  fetch "POST" ("/digest/cp/register/" +:+ brokerId) (ReqRegister brokerId).

(** The [.catch] callback of [registerFileTransformation]. *)
Definition registerFileTransformation_catch (brokerId : string) (err : exn) : M unit :=
  console_error [JString "Failed to register transformation"; JString brokerId; JExn err] ;;
  enableTaskLoadBtn brokerId.

(** The promise chain of [registerFileTransformation], run when its fetch
    settles. *)
Definition registerFileTransformation_then (brokerId : string)
    (fr : fetch_result) : M unit :=
  catch
    (response <- settle fr ;;
     res <- (if (status response =? 201)%Z then
               j <- response_json response ;; ret (JParsed j)
             else if (status response =? 400)%Z then
               fetchTaskStatus brokerId ;; ret JUndefined
             else
               throw (Error (statusText response))) ;;
     console_log [JString "File registered!"; JString brokerId; res])
    (registerFileTransformation_catch brokerId).

(** The timer callback of the pending branch. *)
Definition timer_callback (t : timer) : M unit :=
  console_log [JString "Refreshing task status";
               JString (timer_task_id t); JString (timer_task_name t)] ;;
  fetchTaskStatus (timer_task_id t).

(** The second [.then] of [fetchTaskStatus]. *)
Definition fetchTaskStatus_update (brokerId : string) (res : json) : M unit :=
  match res with
  | JsonOther =>
      throw (TypeError "Cannot destructure 'res.data' as it is undefined")
  | JsonTask (TaskRecord task_id task_name task_status task_result) =>
      let info := [JString task_id; JString task_name; JString task_status;
                   of_nullable task_result] in
      taskRow <- getTaskRow brokerId ;;
      statusCell <- getTaskStatusCell taskRow ;;
      resultCell <- getTaskResultCell taskRow ;;
      match statusCell with
      | Some c => assign_innerText c task_status
      | None => ret tt
      end ;;
      if decide (task_status = "SUCCESS") then
        console_log (JString "Task complete!" :: info) ;;
        match resultCell with
        | Some c => assign_innerText c (to_innerText task_result)
        | None => ret tt
        end ;;
        registerFileTransformation brokerId
      else if decide (task_status = "FAILED" \/ task_status = "NOT FOUND") then
        console_log (JString "Task failed!" :: info) ;;
        match resultCell with
        | Some c => assign_innerText c "No Result"
        | None => ret tt
        end
      else
        console_log (JString "Task pending." :: info) ;;
        match resultCell with
        | Some c => assign_innerText c "Pending"
        | None => ret tt
        end ;;
        setTimeout (Timer 1500 task_id task_name)
  end.

(** The [.catch] callback of [fetchTaskStatus]. *)
Definition fetchTaskStatus_catch (brokerId : string) (err : exn) : M unit :=
  console_error [JString "Failed to fetch status"; JString brokerId; JExn err] ;;
  enableTaskLoadBtn brokerId.

(** The promise chain of [fetchTaskStatus], run when its fetch settles. *)
Definition fetchTaskStatus_then (brokerId : string) (fr : fetch_result) : M unit :=
  catch
    (response <- settle fr ;;
     res <- (if ((status response =? 200) || (status response =? 404))%Z then
               response_json response
             else
               throw (Error (statusText response))) ;;
     fetchTaskStatus_update brokerId res)
    (fetchTaskStatus_catch brokerId).

Definition loadTaskStatus (brokerId : string) : M unit :=
  disableTaskLoadBtn brokerId ;;
  fetchTaskStatus brokerId.

(** ** The event loop *)

Definition chain_then (q : request) : fetch_result -> M unit :=
  match q with
  | ReqStatus brokerId => fetchTaskStatus_then brokerId
  | ReqRegister brokerId => registerFileTransformation_then brokerId
  end.

(** What the environment does next: the [i]-th pending fetch settles, or the
    [i]-th pending timer fires. *)
Inductive event :=
  | Settles (i : nat) (fr : fetch_result)
  | Fires (i : nat).

Definition dispatch (ev : event) (w : world) : option world :=
  match ev with
  | Settles i fr =>
      q ← inflight w !! i;
      Some (exec (chain_then q fr)
              (World (doc w) (delete i (inflight w)) (timers w) (trace w)))
  | Fires i =>
      t ← timers w !! i;
      Some (exec (timer_callback t)
              (World (doc w) (inflight w) (delete i (timers w)) (trace w)))
  end.

Fixpoint run (evs : list event) (w : world) : option world :=
  match evs with
  | [] => Some w
  | ev :: evs' => w' ← dispatch ev w; run evs' w'
  end.

(** ** Observations on the document *)

Definition control_disabled (brokerId : string) (d : gmap string row) : option bool :=
  r ← d !! ("ct-" +:+ brokerId);
  c ← cells r !! 3%nat;
  n ← firstChild c;
  Some (disabled n).

Definition cell_text (brokerId : string) (i : nat) (d : gmap string row) : option string :=
  r ← d !! ("ct-" +:+ brokerId);
  c ← cells r !! i;
  Some (innerText c).

Definition status_text (brokerId : string) := cell_text brokerId 1.
Definition result_text (brokerId : string) := cell_text brokerId 4.

Definition is_status_request (q : request) : bool :=
  match q with ReqStatus _ => true | ReqRegister _ => false end.

Definition is_fetch (e : effect) : bool :=
  match e with Fetch _ _ => true | _ => false end.

Definition is_console_error (e : effect) : bool :=
  match e with ConsoleError _ => true | _ => false end.

Definition is_set_disabled (e : effect) : bool :=
  match e with SetDisabled _ _ => true | _ => false end.

(** The failures of the transport: the fetch is rejected, or the response
    carries an HTTP status its chain has no branch for. *)
Definition transport_failure (q : request) (fr : fetch_result) : bool :=
  match fr, q with
  | Rejected _, _ => true
  | Fulfilled r, ReqStatus _ => negb ((status r =? 200) || (status r =? 404))%Z
  | Fulfilled r, ReqRegister _ => negb ((status r =? 201) || (status r =? 400))%Z
  end.

Definition handle_of (q : request) : string :=
  match q with ReqStatus h | ReqRegister h => h end.

Definition outstanding (w : world) : nat :=
  (length (inflight w) + length (timers w))%nat.

(** ** Sample inputs *)

(** A row in the layout of the table: id, status, an unused cell, the load
    button, the result. *)
Definition sample_row (disabled : bool) : row :=
  Row [Cell "abc123" (Some text_node); Cell "PENDING" (Some text_node); Cell "" None;
       Cell "Load" (Some (Node "BUTTON" disabled)); Cell "" None].

(** The document holds the row of handle [abc123], its button still enabled. *)
Definition idle_world : world :=
  World {[ "ct-abc123" := sample_row false ]} [] [] [].

(** The same after the loader ran: the button is disabled. *)
Definition loading_world : world :=
  World {[ "ct-abc123" := sample_row true ]} [] [] [].

(** A document without the row of [abc123]. *)
Definition rowless_world : world := World ∅ [] [] [].

Definition status_ok (r : task_record) : response :=
  Response 200 "OK" (Some (JsonTask r)).

Definition pending_record : task_record := TaskRecord "abc123" "digest" "PENDING" None.
Definition success_record : task_record := TaskRecord "abc123" "digest" "SUCCESS" (Some "done").
Definition failed_record : task_record := TaskRecord "abc123" "digest" "FAILED" None.
Definition unknown_record : task_record := TaskRecord "abc123" "" "NOT FOUND" None.

(** A pending record in which the server names another task than the one
    that was asked for. *)
Definition renamed_record : task_record := TaskRecord "xyz" "digest" "PENDING" None.

Definition server_error : fetch_result :=
  Fulfilled (Response 500 "Internal Server Error" None).

Definition conflict : response := Response 400 "Bad Request" None.

(** ** Descriptions used in the statements *)

(** What [disableTaskLoadBtn] ([b = true]) and [enableTaskLoadBtn]
    ([b = false]) do to a world. *)
Definition toggled (h : string) (b : bool) (w : world) : world :=
  match control_disabled h (doc w) with
  | Some _ =>
      World (update_cell (set_disabled b) ("ct-" +:+ h, 3%nat) (doc w))
        (inflight w) (timers w) (trace w ++ [SetDisabled ("ct-" +:+ h, 3%nat) b])
  | None => w
  end.

Inductive status_class := Succeeded | Failed | Pending.

Definition classify (task_status : string) : status_class :=
  if decide (task_status = "SUCCESS") then Succeeded
  else if decide (task_status = "FAILED" \/ task_status = "NOT FOUND") then Failed
  else Pending.

Definition branch_label (c : status_class) : string :=
  match c with
  | Succeeded => "Task complete!"
  | Failed => "Task failed!"
  | Pending => "Task pending."
  end.

Definition branch_text (c : status_class) (r : task_record) : string :=
  match c with
  | Succeeded => to_innerText (task_result r)
  | Failed => "No Result"
  | Pending => "Pending"
  end.

Definition branch_follow_up (c : status_class) (h : string) (r : task_record) : M unit :=
  match c with
  | Succeeded => registerFileTransformation h
  | Failed => ret tt
  | Pending => setTimeout (Timer 1500 (task_id r) (task_name r))
  end.

(** The effect of a write guarded by [if (cell)]. *)
Definition guarded {A} (o : option A) (e : effect) : list effect :=
  match o with Some _ => [e] | None => [] end.

(** The document after the status cell and the result cell of the row of [h]
    were written. *)
Definition written (h status_txt result_txt : string) (d : gmap string row) :
    gmap string row :=
  update_cell (set_innerText result_txt) ("ct-" +:+ h, 4%nat)
    (update_cell (set_innerText status_txt) ("ct-" +:+ h, 1%nat) d).

(** A response of the status endpoint that the first [.then] lets through and
    whose body carries the task record [rec]. *)
Definition is_status_response (r : response) (rec : task_record) : Prop :=
  (status r = 200 \/ status r = 404) /\ body r = Some (JsonTask rec).

Definition is_set_timeout (e : effect) : bool :=
  match e with SetTimeout _ _ => true | _ => false end.

(** At most one fetch or timer is pending, and every pending timer waits for
    the fixed delay. *)
Definition serial (w : world) : Prop :=
  (outstanding w <= 1)%nat /\ Forall (fun t => delay t = 1500) (timers w).

(** [n] repetitions of the same round of events. *)
Fixpoint rounds (n : nat) (round : list event) : list event :=
  match n with
  | O => []
  | S n' => round ++ rounds n' round
  end.

(** ** The sleeper page: [handleClick], [getTableRow], [getStatus]

    The first script of the README launches a task and polls it into a table
    with the body [tasks].  A row is found by its id or appended to a table
    body, so the page is modelled as the table bodies in document order, each
    with its rows in order.  As in the script, the element named by
    [tableBodyId] is taken to be a table body and the element named by
    [{prefix}-{rowId}] a row; [innerHTML] holds the markup assigned last. *)

Module Sleeper.

Record trow := TRow { row_id : string; innerHTML : string }.

Record tbody := TBody { body_id : string; rows : list trow }.

(** A row is referred to by the position of its table body and its position
    in that body. *)
Abbreviation trow_ref := (nat * nat)%type (only parsing).

(** A pending promise chain: the one of [handleClick], or the one of
    [getStatus] with the [brokerId] it closes over. *)
Inductive chain :=
  | Launch
  | Poll (brokerId : string).

(** A request as it leaves: [delay] is the [type] argument of [handleClick]
    as [JSON.stringify] renders it. *)
Inductive sent_request :=
  | Get (url : string)
  | Post (url : string) (delay : string).

Record state := State {
  page : list tbody;
  pending : list chain;
  timeouts : list (Z * string);        (* delay, task id *)
  sent : list sent_request;            (* oldest first *)
  console : list jsval                 (* oldest first *)
}.

Inductive outcome (A : Type) :=
  | Done (a : A) (s : state)
  | Raise (e : exn) (s : state).
Arguments Done {A} a s.
Arguments Raise {A} e s.

Definition Script (A : Type) : Type := state -> outcome A.

Definition sret {A} (a : A) : Script A := fun s => Done a s.

Definition sbind {A B} (m : Script A) (k : A -> Script B) : Script B := fun s =>
  match m s with
  | Done a s' => k a s'
  | Raise e s' => Raise e s'
  end.

Definition sthrow {A} (e : exn) : Script A := fun s => Raise e s.

Definition scatch {A} (m : Script A) (handler : exn -> Script A) : Script A := fun s =>
  match m s with
  | Done a s' => Done a s'
  | Raise e s' => handler e s'
  end.

Declare Scope sleeper_scope.
Notation "x <- m ;; k" := (sbind m (fun x => k))
  (at level 100, m at next level, right associativity) : sleeper_scope.
Notation "m ;; k" := (sbind m (fun _ => k))
  (at level 100, right associativity) : sleeper_scope.
Local Open Scope sleeper_scope.

(** The state a statement leaves behind; an exception nobody catches is an
    unhandled rejection. *)
Definition srun {A} (m : Script A) (s : state) : state :=
  match m s with
  | Done _ s' => s'
  | Raise _ s' => s'
  end.

(** [document.getElementById(id)] for the id of a row: the first row of that
    id in document order. *)
Definition find_row (id : string) (p : list tbody) : option trow_ref :=
  '(b, tb) ← list_find (fun tb => Exists (fun r => row_id r = id) (rows tb)) p;
  '(i, _) ← list_find (fun r => row_id r = id) (rows tb);
  Some (b, i).

(** [document.getElementById(id)] for the id of a table body. *)
Definition find_body (id : string) (p : list tbody) : option nat :=
  fst <$> list_find (fun tb => body_id tb = id) p.

Definition getRowById (id : string) : Script (option trow_ref) := fun s =>
  Done (find_row id (page s)) s.

Definition getBodyById (id : string) : Script (option nat) := fun s =>
  Done (find_body id (page s)) s.

(** [body.insertRow()]: a new row is appended; on [null] the call throws. *)
Definition insertRow (body : option nat) : Script trow_ref := fun s =>
  match body with
  | None => Raise (TypeError "Cannot read properties of null (reading 'insertRow')") s
  | Some b =>
      Done (b, from_option (fun tb => length (rows tb)) 0%nat (page s !! b))
        (State (alter (fun tb => TBody (body_id tb) (rows tb ++ [TRow "" ""])) b (page s))
           (pending s) (timeouts s) (sent s) (console s))
  end.

Definition update_row (f : trow -> trow) (ref : trow_ref) (p : list tbody) : list tbody :=
  alter (fun tb => TBody (body_id tb) (alter f ref.2 (rows tb))) ref.1 p.

(** [row.id = id] *)
Definition assign_id (row : trow_ref) (id : string) : Script unit := fun s =>
  Done tt (State (update_row (fun r => TRow id (innerHTML r)) row (page s))
             (pending s) (timeouts s) (sent s) (console s)).

(** [row.innerHTML = html] *)
Definition assign_innerHTML (row : trow_ref) (html : string) : Script unit := fun s =>
  Done tt (State (update_row (fun r => TRow (row_id r) html) row (page s))
             (pending s) (timeouts s) (sent s) (console s)).

Definition fetch (q : sent_request) (c : chain) : Script unit := fun s =>
  Done tt (State (page s) (pending s ++ [c]) (timeouts s) (sent s ++ [q]) (console s)).

Definition setTimeout (ms : Z) (task : string) : Script unit := fun s =>
  Done tt (State (page s) (pending s) (timeouts s ++ [(ms, task)]) (sent s) (console s)).

Definition console_log (args : jsval) : Script unit := fun s =>
  Done tt (State (page s) (pending s) (timeouts s) (sent s) (console s ++ [args])).

Definition settle (fr : fetch_result) : Script response :=
  match fr with
  | Rejected reason => sthrow reason
  | Fulfilled r => sret r
  end.

Definition response_json (r : response) : Script json :=
  match body r with
  | Some j => sret j
  | None => sthrow (SyntaxError "Unexpected token")
  end.

(** A value inside a template literal: [null] prints as ["null"]. *)
Definition to_template (o : option string) : string :=
  match o with Some s => s | None => "null" end.

Definition getTableRow (rowId tableBodyId rowIdPrefix : string) : Script trow_ref :=
  let dataId := rowIdPrefix +:+ "-" +:+ rowId in
  row <- match rowId with
         | EmptyString => sret None
         | String _ _ => getRowById dataId
         end ;;
  match row with
  | Some r => sret r
  | None =>
      body <- getBodyById tableBodyId ;;
      r <- insertRow body ;;
      assign_id r dataId ;;
      sret r
  end.

(** The synchronous part of [getStatus]. *)
Definition getStatus (brokerId : string) : Script unit :=
  fetch (Get ("/digest/task/" +:+ brokerId)) (Poll brokerId).

(** The second [.then] of [getStatus]. *)
Definition getStatus_update (brokerId : string) (res : json) : Script unit :=
  match res with
  | JsonOther =>
      sthrow (TypeError "Cannot read properties of undefined (reading 'task_status')")
  | JsonTask data =>
      let html := "<td>" +:+ brokerId +:+ "</td><td>" +:+ task_status data
                  +:+ "</td><td>" +:+ to_template (task_result data) +:+ "</td>" in
      row <- getTableRow brokerId "tasks" "data" ;;
      assign_innerHTML row html ;;
      let taskStatus := task_status data in
      if decide (taskStatus = "SUCCESS" \/ taskStatus = "FAILED") then sret tt
      else setTimeout 1000 (task_id data)
  end.

(** The promise chain of [getStatus]. *)
Definition getStatus_then (brokerId : string) (fr : fetch_result) : Script unit :=
  scatch
    (response <- settle fr ;;
     res <- response_json response ;;
     getStatus_update brokerId res)
    (fun err => console_log (JExn err)).


(** The promise chain of [handleClick]; it has no [.catch]. *)
Definition handleClick_then (fr : fetch_result) : Script unit :=
  response <- settle fr ;;
  res <- response_json response ;;
  match res with
  | JsonTask data => getStatus (task_id data)
  | JsonOther => sthrow (TypeError "Cannot read properties of undefined (reading 'task_id')")
  end.

Definition chain_then (c : chain) : fetch_result -> Script unit :=
  match c with
  | Launch => handleClick_then
  | Poll brokerId => getStatus_then brokerId
  end.

Inductive event :=
  | Settles (i : nat) (fr : fetch_result)
  | Fires (i : nat).

Definition dispatch (ev : event) (s : state) : option state :=
  match ev with
  | Settles i fr =>
      c ← pending s !! i;
      Some (srun (chain_then c fr)
              (State (page s) (delete i (pending s)) (timeouts s) (sent s) (console s)))
  | Fires i =>
      t ← timeouts s !! i;
      Some (srun (getStatus t.2)
              (State (page s) (pending s) (delete i (timeouts s)) (sent s) (console s)))
  end.

Fixpoint run (evs : list event) (s : state) : option state :=
  match evs with
  | [] => Some s
  | ev :: evs' => s' ← dispatch ev s; run evs' s'
  end.

(** Observations. *)

Definition row_at (ref : trow_ref) (p : list tbody) : option trow :=
  tb ← p !! ref.1; rows tb !! ref.2.


Definition row_count (p : list tbody) : nat :=
  sum_list (map (fun tb => length (rows tb)) p).


(** A page with an empty [tasks] table. *)
Definition empty_page : state := State [TBody "tasks" []] [] [] [] [].

End Sleeper.

(** ** Lemmas on the document *)

Section DocumentLemmas.

Context (d : gmap string row).

Lemma update_cell_lookup_eq f id i :
  update_cell f (id, i) d !! id = (fun r => Row (alter f i (cells r))) <$> d !! id.
Proof. unfold update_cell; simpl. apply lookup_alter_eq. Qed.

Lemma update_cell_lookup_ne f id i k :
  id ≠ k -> update_cell f (id, i) d !! k = d !! k.
Proof. intros Hne. unfold update_cell; simpl. by apply lookup_alter_ne. Qed.

End DocumentLemmas.

Lemma control_disabled_set h b d :
  control_disabled h (update_cell (set_disabled b) ("ct-" +:+ h, 3%nat) d)
  = (fun _ => b) <$> control_disabled h d.
Proof.
  unfold control_disabled. rewrite update_cell_lookup_eq.
  destruct (d !! ("ct-" +:+ h)) as [r|]; simpl; [|done].
  rewrite list_lookup_alter_eq.
  destruct (cells r !! 3%nat) as [c|]; simpl; [|done].
  by destruct (firstChild c).
Qed.

Lemma control_disabled_text h id i t d :
  i ≠ 3%nat ->
  control_disabled h (update_cell (set_innerText t) (id, i) d) = control_disabled h d.
Proof.
  intros Hi. unfold control_disabled.
  destruct (decide (id = "ct-" +:+ h)) as [->|Hne].
  - rewrite update_cell_lookup_eq.
    destruct (d !! ("ct-" +:+ h)) as [r|]; simpl; [|done].
    by rewrite list_lookup_alter_ne.
  - by rewrite update_cell_lookup_ne.
Qed.

Lemma cell_text_write h i t d :
  cell_text h i (update_cell (set_innerText t) ("ct-" +:+ h, i) d)
  = (fun _ => t) <$> cell_text h i d.
Proof.
  unfold cell_text. rewrite update_cell_lookup_eq.
  destruct (d !! ("ct-" +:+ h)) as [r|]; simpl; [|done].
  rewrite list_lookup_alter_eq.
  by destruct (cells r !! i).
Qed.

Lemma cell_text_write_other h i j t d :
  i ≠ j ->
  cell_text h j (update_cell (set_innerText t) ("ct-" +:+ h, i) d) = cell_text h j d.
Proof.
  intros Hij. unfold cell_text. rewrite update_cell_lookup_eq.
  destruct (d !! ("ct-" +:+ h)) as [r|]; simpl; [|done].
  by rewrite list_lookup_alter_ne.
Qed.

(** ** Lemmas on the helpers *)

Lemma toggled_control h b w :
  control_disabled h (doc (toggled h b w)) = (fun _ => b) <$> control_disabled h (doc w).
Proof.
  unfold toggled. destruct (control_disabled h (doc w)) eqn:E; simpl.
  - by rewrite control_disabled_set, E.
  - by rewrite E.
Qed.

Lemma toggled_queues h b w :
  inflight (toggled h b w) = inflight w /\ timers (toggled h b w) = timers w.
Proof. unfold toggled. by destruct (control_disabled h (doc w)). Qed.

Lemma toggled_emit_queues h b e w :
  inflight (toggled h b (emit e w)) = inflight w
  /\ timers (toggled h b (emit e w)) = timers w.
Proof. by destruct (toggled_queues h b (emit e w)) as [-> ->]. Qed.

Lemma toggled_trace h b w :
  trace (toggled h b w)
  = trace w ++ match control_disabled h (doc w) with
               | Some _ => [SetDisabled ("ct-" +:+ h, 3%nat) b]
               | None => []
               end.
Proof.
  unfold toggled. destruct (control_disabled h (doc w)); simpl; [done|].
  by rewrite app_nil_r.
Qed.

Lemma disableTaskLoadBtn_spec h w :
  disableTaskLoadBtn h w = Ok tt (toggled h true w).
Proof.
  unfold disableTaskLoadBtn, toggled, control_disabled, getTaskRow, getTaskLoadBtn,
    getElementById, row_cells, assign_disabled, bind, ret.
  generalize ("ct-" +:+ h); intros rid.
  destruct (doc w !! rid) as [r|] eqn:Hr; cbn; [|done].
  rewrite Hr. destruct (cells r !! 3%nat) as [c|]; cbn; [|done].
  by destruct (firstChild c).
Qed.

Lemma enableTaskLoadBtn_spec h w :
  enableTaskLoadBtn h w = Ok tt (toggled h false w).
Proof.
  unfold enableTaskLoadBtn, toggled, control_disabled, getTaskRow, getTaskLoadBtn,
    getElementById, row_cells, assign_disabled, bind, ret.
  generalize ("ct-" +:+ h); intros rid.
  destruct (doc w !! rid) as [r|] eqn:Hr; cbn; [|done].
  rewrite Hr. destruct (cells r !! 3%nat) as [c|]; cbn; [|done].
  by destruct (firstChild c).
Qed.

(** The [.catch] handlers of both chains: one console error, then the
    control of the handle is enabled. *)
Lemma fetchTaskStatus_catch_spec (h : string) (err : exn) (w : world) :
  fetchTaskStatus_catch h err w
  = Ok tt (toggled h false
             (emit (ConsoleError [JString "Failed to fetch status"; JString h; JExn err]) w)).
Proof. unfold fetchTaskStatus_catch, bind, console_error. by rewrite enableTaskLoadBtn_spec. Qed.

Lemma registerFileTransformation_catch_spec (h : string) (err : exn) (w : world) :
  registerFileTransformation_catch h err w
  = Ok tt (toggled h false
             (emit (ConsoleError [JString "Failed to register transformation";
                                  JString h; JExn err]) w)).
Proof.
  unfold registerFileTransformation_catch, bind, console_error.
  by rewrite enableTaskLoadBtn_spec.
Qed.

(** ** The loader *)

(** C6. One call of [loadTaskStatus h] runs synchronously (no event of the
    loop is dispatched in between) and, in this order, disables the control
    of [h], when the row of [h] holds one, and only then issues its one
    network request, the status fetch for [h]. *)
Theorem loadTaskStatus_disables_before_fetch (h : string) (w : world) :
  let w' := exec (loadTaskStatus h) w in
  trace w' = trace w
             ++ match control_disabled h (doc w) with
                | Some _ => [SetDisabled ("ct-" +:+ h, 3%nat) true]
                | None => []
                end
             ++ [Fetch "GET" ("/digest/task/" +:+ h)]
  /\ control_disabled h (doc w') = (fun _ => true) <$> control_disabled h (doc w)
  /\ inflight w' = inflight w ++ [ReqStatus h]
  /\ timers w' = timers w.
Proof.
  unfold loadTaskStatus, exec, bind. rewrite disableTaskLoadBtn_spec.
  unfold fetchTaskStatus, fetch. cbn [doc inflight timers trace].
  rewrite toggled_trace, toggled_control.
  destruct (toggled_queues h true w) as [-> ->].
  by rewrite <- app_assoc.
Qed.

(** ** Transport failures *)

Lemma fetchTaskStatus_then_failure h fr w :
  transport_failure (ReqStatus h) fr = true ->
  exists err,
    fetchTaskStatus_then h fr w
    = Ok tt (toggled h false
               (emit (ConsoleError [JString "Failed to fetch status"; JString h; JExn err]) w)).
Proof.
  intros Hf. destruct fr as [reason|r]; simpl in Hf.
  - exists reason. unfold fetchTaskStatus_then, catch. cbn [settle bind throw].
    apply fetchTaskStatus_catch_spec.
  - exists (Error (statusText r)). unfold fetchTaskStatus_then, catch.
    cbn [settle bind ret]. apply negb_true_iff in Hf. rewrite Hf.
    cbn [throw]. apply fetchTaskStatus_catch_spec.
Qed.

Lemma registerFileTransformation_then_failure h fr w :
  transport_failure (ReqRegister h) fr = true ->
  exists err,
    registerFileTransformation_then h fr w
    = Ok tt (toggled h false
               (emit (ConsoleError [JString "Failed to register transformation";
                                    JString h; JExn err]) w)).
Proof.
  intros Hf. destruct fr as [reason|r]; simpl in Hf.
  - exists reason. unfold registerFileTransformation_then, catch.
    cbn [settle bind throw]. apply registerFileTransformation_catch_spec.
  - exists (Error (statusText r)). unfold registerFileTransformation_then, catch.
    cbn [settle bind ret]. apply negb_true_iff, orb_false_iff in Hf.
    destruct Hf as [-> ->]. cbn [throw]. apply registerFileTransformation_catch_spec.
Qed.

(** C4. When the fetch of a chain is rejected, or a status fetch is answered
    with an HTTP status other than 200 and 404, or a registration with one
    other than 201 and 400, the chain logs one console error, enables the
    control of its handle (when the row holds one), writes nothing else to
    the document, and leaves no request and no timer behind. *)
Theorem transport_failure_reenables_control (q : request) (fr : fetch_result) (w : world) :
  transport_failure q fr = true ->
  let h := handle_of q in
  let w' := exec (chain_then q fr) w in
  control_disabled h (doc w') = (fun _ => false) <$> control_disabled h (doc w)
  /\ inflight w' = inflight w
  /\ timers w' = timers w
  /\ exists label err,
       trace w' = trace w
                  ++ ConsoleError [JString label; JString h; JExn err]
                  :: match control_disabled h (doc w) with
                     | Some _ => [SetDisabled ("ct-" +:+ h, 3%nat) false]
                     | None => []
                     end.
Proof.
  intros Hf h w'. subst h w'. unfold exec.
  destruct q as [h|h]; cbn [chain_then handle_of].
  - destruct (fetchTaskStatus_then_failure h fr w Hf) as [err ->].
    rewrite toggled_control, toggled_trace.
    destruct (toggled_queues h false
                (emit (ConsoleError [JString "Failed to fetch status"; JString h; JExn err]) w))
      as [-> ->].
    cbn [emit doc inflight timers trace]. repeat split.
    eexists _, err. by rewrite <- app_assoc.
  - destruct (registerFileTransformation_then_failure h fr w Hf) as [err ->].
    rewrite toggled_control, toggled_trace.
    destruct (toggled_queues h false
                (emit (ConsoleError [JString "Failed to register transformation";
                                     JString h; JExn err]) w))
      as [-> ->].
    cbn [emit doc inflight timers trace]. repeat split.
    eexists _, err. by rewrite <- app_assoc.
Qed.

Lemma transport_failure_reenables_control_witness :
  transport_failure (ReqStatus "abc123") server_error = true
  /\ control_disabled "abc123"
       (doc (exec (chain_then (ReqStatus "abc123") server_error) loading_world))
     = Some false.
Proof.
  split; [reflexivity|].
  apply (transport_failure_reenables_control (ReqStatus "abc123") server_error loading_world).
  reflexivity.
Defined.

(** ** Registration answered with 400 *)

Lemma register_400_follow_up (h : string) (r : response) (w : world) :
  status r = 400 ->
  let w' := exec (registerFileTransformation_then h (Fulfilled r)) w in
  inflight w' = inflight w ++ [ReqStatus h] /\ timers w' = timers w.
Proof.
  intros Hs. unfold registerFileTransformation_then, exec, catch.
  cbn [settle bind ret]. rewrite Hs. by cbn.
Qed.

(** C5. When the registration for [h] is answered with HTTP 400, the chain
    issues exactly one status fetch for [h]; it logs no console error, does
    not touch the document (so the control stays as it is) and sets no
    timer. *)
Theorem register_400_refetches_status (h : string) (r : response) (w : world) :
  status r = 400 ->
  let w' := exec (registerFileTransformation_then h (Fulfilled r)) w in
  trace w' = trace w ++ [Fetch "GET" ("/digest/task/" +:+ h);
                         ConsoleLog [JString "File registered!"; JString h; JUndefined]]
  /\ inflight w' = inflight w ++ [ReqStatus h]
  /\ timers w' = timers w
  /\ doc w' = doc w.
Proof.
  intros Hs. unfold registerFileTransformation_then, exec, catch.
  cbn [settle bind ret]. rewrite Hs.
  cbn. by rewrite <- app_assoc.
Qed.

Lemma register_400_refetches_status_witness :
  status conflict = 400
  /\ inflight (exec (registerFileTransformation_then "abc123" (Fulfilled conflict))
                 loading_world)
     = [ReqStatus "abc123"].
Proof.
  split; [reflexivity|].
  apply (register_400_refetches_status "abc123" conflict loading_world).
  reflexivity.
Defined.

(** ** Status responses *)

Lemma update_cell_no_cell f id i r (d : gmap string row) :
  d !! id = Some r -> cells r !! i = None -> update_cell f (id, i) d = d.
Proof.
  intros Hr Hc. apply map_eq; intros k. destruct (decide (id = k)) as [<-|Hne].
  - rewrite update_cell_lookup_eq, Hr. simpl. f_equal.
    destruct r as [cs]; simpl in *. f_equal.
    apply list_eq; intros j. destruct (decide (i = j)) as [<-|Hij].
    + by rewrite list_lookup_alter_eq, Hc.
    + by rewrite list_lookup_alter_ne.
  - by apply update_cell_lookup_ne.
Qed.

Lemma update_cell_cells f id i j r (d : gmap string row) :
  d !! id = Some r -> i ≠ j ->
  exists r', update_cell f (id, i) d !! id = Some r' /\ cells r' !! j = cells r !! j.
Proof.
  intros Hr Hij. eexists. rewrite update_cell_lookup_eq, Hr. split; [done|].
  simpl. by rewrite list_lookup_alter_ne.
Qed.

Lemma fetchTaskStatus_update_row h rec r w :
  doc w !! ("ct-" +:+ h) = Some r ->
  let c := classify (task_status rec) in
  let rid := "ct-" +:+ h in
  fetchTaskStatus_update h (JsonTask rec) w
  = Ok tt (exec (branch_follow_up c h rec)
             (World (written h (task_status rec) (branch_text c rec) (doc w))
                (inflight w) (timers w)
                (trace w
                 ++ guarded (cells r !! 1%nat) (SetInnerText (rid, 1%nat) (task_status rec))
                 ++ ConsoleLog [JString (branch_label c); JString (task_id rec);
                                JString (task_name rec); JString (task_status rec);
                                of_nullable (task_result rec)]
                 :: guarded (cells r !! 4%nat) (SetInnerText (rid, 4%nat) (branch_text c rec))))).
Proof.
  intros Hr c rid. subst c rid. destruct rec as [tid tname st res].
  unfold fetchTaskStatus_update, written, classify, getTaskRow, getTaskStatusCell,
    getTaskResultCell, getElementById, row_cells, bind, ret, exec.
  cbn [task_status task_id task_name task_result].
  revert Hr. generalize ("ct-" +:+ h). intros rid Hr. rewrite !Hr.
  unfold assign_innerText, console_log, emit.
  destruct (decide (st = "SUCCESS")); [|destruct (decide (st = "FAILED" \/ st = "NOT FOUND"))].
  all: unfold branch_follow_up, branch_text, branch_label, registerFileTransformation,
         fetch, setTimeout, ret.
  all: destruct (cells r !! 1%nat) as [c1|] eqn:H1;
       destruct (cells r !! 4%nat) as [c4|] eqn:H4.
  all: cbn [doc inflight timers trace guarded delay timer_task_id task_result
              task_id task_name].
  all: rewrite <- ?app_assoc; cbn [app].
  all: try reflexivity.
  all: try (rewrite (update_cell_no_cell _ rid 1%nat r (doc w) Hr H1)).
  all: try reflexivity.
  all: try (rewrite (update_cell_no_cell _ rid 4%nat r (doc w) Hr H4)).
  all: try reflexivity.
  all: destruct (update_cell_cells (set_innerText st) rid 1%nat 4%nat r (doc w) Hr ltac:(lia))
         as (r' & Hr' & Hc').
  all: rewrite H4 in Hc'.
  all: rewrite (update_cell_no_cell _ rid 4%nat r' _ Hr' Hc'); reflexivity.
Qed.

Lemma classify_success st : st = "SUCCESS" -> classify st = Succeeded.
Proof. intros ->. reflexivity. Qed.

Lemma classify_failed st : st = "FAILED" \/ st = "NOT FOUND" -> classify st = Failed.
Proof. intros [-> | ->]; reflexivity. Qed.

Lemma classify_pending st :
  st ≠ "SUCCESS" -> st ≠ "FAILED" -> st ≠ "NOT FOUND" -> classify st = Pending.
Proof.
  intros H1 H2 H3. unfold classify.
  destruct (decide (st = "SUCCESS")); [done|].
  destruct (decide (st = "FAILED" \/ st = "NOT FOUND")) as [[?|?]|?]; done.
Qed.

Lemma written_control h s t d :
  control_disabled h (written h s t d) = control_disabled h d.
Proof. unfold written. by rewrite !control_disabled_text. Qed.

Lemma written_result h s t d :
  result_text h (written h s t d) = (fun _ => t) <$> result_text h d.
Proof.
  unfold written, result_text.
  by rewrite cell_text_write, cell_text_write_other.
Qed.

Lemma written_status h s t d :
  status_text h (written h s t d) = (fun _ => s) <$> status_text h d.
Proof.
  unfold written, status_text.
  by rewrite cell_text_write_other, cell_text_write.
Qed.

Lemma written_other_rows h s t d k :
  k ≠ "ct-" +:+ h -> written h s t d !! k = d !! k.
Proof. intros Hk. unfold written. by rewrite !update_cell_lookup_ne. Qed.

Lemma toggled_other_rows h b w k :
  k ≠ "ct-" +:+ h -> doc (toggled h b w) !! k = doc w !! k.
Proof.
  intros Hk. unfold toggled. destruct (control_disabled h (doc w)); [|done].
  cbn [doc]. by rewrite update_cell_lookup_ne.
Qed.

Lemma control_disabled_rowless h d :
  d !! ("ct-" +:+ h) = None -> control_disabled h d = None.
Proof. intros Hn. unfold control_disabled. by rewrite Hn. Qed.

Lemma branch_follow_up_doc c h rec w :
  doc (exec (branch_follow_up c h rec) w) = doc w.
Proof. by destruct c. Qed.

Lemma fetchTaskStatus_then_response h r rec w :
  is_status_response r rec ->
  fetchTaskStatus_then h (Fulfilled r) w
  = catch (fetchTaskStatus_update h (JsonTask rec)) (fetchTaskStatus_catch h) w.
Proof.
  intros [Hs Hb]. unfold fetchTaskStatus_then, catch. cbn [settle bind ret].
  assert (((status r =? 200) || (status r =? 404))%Z = true) as ->.
  { destruct Hs as [-> | ->]; reflexivity. }
  unfold response_json. by rewrite Hb.
Qed.

(** The row of [h] is in the document: the record is written and the branch
    of its status runs. *)
Lemma fetchTaskStatus_then_row h r rec row w :
  is_status_response r rec ->
  doc w !! ("ct-" +:+ h) = Some row ->
  let c := classify (task_status rec) in
  fetchTaskStatus_then h (Fulfilled r) w
  = Ok tt (exec (branch_follow_up c h rec)
             (World (written h (task_status rec) (branch_text c rec) (doc w))
                (inflight w) (timers w)
                (trace w
                 ++ guarded (cells row !! 1%nat)
                      (SetInnerText ("ct-" +:+ h, 1%nat) (task_status rec))
                 ++ ConsoleLog [JString (branch_label c); JString (task_id rec);
                                JString (task_name rec); JString (task_status rec);
                                of_nullable (task_result rec)]
                 :: guarded (cells row !! 4%nat)
                      (SetInnerText ("ct-" +:+ h, 4%nat) (branch_text c rec))))).
Proof.
  intros Hresp Hrow c. rewrite (fetchTaskStatus_then_response h r rec w Hresp).
  unfold catch. by rewrite (fetchTaskStatus_update_row h rec row w Hrow).
Qed.

(** The row of [h] is missing: [getTaskStatusCell] is handed [null] and
    throws. *)
Lemma fetchTaskStatus_update_rowless h rec w :
  doc w !! ("ct-" +:+ h) = None ->
  fetchTaskStatus_update h (JsonTask rec) w
  = Throw (TypeError "Cannot read properties of null (reading 'cells')") w.
Proof.
  intros Hrow. destruct rec as [tid tname st res].
  unfold fetchTaskStatus_update, getTaskRow, getTaskStatusCell, getElementById,
    row_cells, bind. by rewrite Hrow.
Qed.

Lemma fetchTaskStatus_then_rowless h r rec w :
  is_status_response r rec ->
  doc w !! ("ct-" +:+ h) = None ->
  fetchTaskStatus_then h (Fulfilled r) w
  = Ok tt (emit (ConsoleError
                   [JString "Failed to fetch status"; JString h;
                    JExn (TypeError "Cannot read properties of null (reading 'cells')")]) w).
Proof.
  intros Hresp Hrow. rewrite (fetchTaskStatus_then_response h r rec w Hresp).
  unfold catch. rewrite (fetchTaskStatus_update_rowless h rec w Hrow).
  rewrite fetchTaskStatus_catch_spec. unfold toggled, emit. cbn [doc].
  by rewrite (control_disabled_rowless h _ Hrow).
Qed.

Lemma guarded_Forall {A} (P : effect -> Prop) (o : option A) e :
  P e -> Forall P (guarded o e).
Proof. intros He. destruct o; repeat constructor; done. Qed.

Lemma result_text_rowless h d :
  d !! ("ct-" +:+ h) = None -> result_text h d = None.
Proof. intros Hn. unfold result_text, cell_text. by rewrite Hn. Qed.

Lemma fire_last_timer (t : timer) (w : world) (ts : list timer) :
  timers w = ts ++ [t] ->
  dispatch (Fires (length ts)) w
  = Some (World (doc w)
            (inflight w ++ [ReqStatus (timer_task_id t)])
            ts
            (trace w ++ [ConsoleLog [JString "Refreshing task status";
                                     JString (timer_task_id t);
                                     JString (timer_task_name t)];
                         Fetch "GET" ("/digest/task/" +:+ timer_task_id t)])).
Proof.
  intros Ht. unfold dispatch. rewrite Ht, list_lookup_middle by done.
  cbn [mbind option_bind]. rewrite delete_middle, app_nil_r.
  unfold exec, timer_callback, bind, console_log, fetchTaskStatus, fetch, emit.
  cbn [doc inflight timers trace]. by rewrite <- app_assoc.
Qed.

(** ** Domain-terminal statuses *)

(** C3. For a status response that reports [FAILED] or [NOT FOUND], the
    result cell of the handle, when the document has one, holds
    ["No Result"] afterwards, and the chain leaves no request and no timer
    behind: polling stops. *)
Theorem failed_status_writes_no_result
    (h : string) (r : response) (rec : task_record) (w : world) :
  is_status_response r rec ->
  task_status rec = "FAILED" \/ task_status rec = "NOT FOUND" ->
  let w' := exec (fetchTaskStatus_then h (Fulfilled r)) w in
  result_text h (doc w') = (fun _ => "No Result") <$> result_text h (doc w)
  /\ inflight w' = inflight w
  /\ timers w' = timers w
  /\ exists suffix,
       trace w' = trace w ++ suffix
       /\ Forall (fun e => is_fetch e = false /\ is_set_timeout e = false) suffix.
Proof.
  intros Hresp Hst w'. subst w'. unfold exec.
  destruct (doc w !! ("ct-" +:+ h)) as [row|] eqn:Hrow.
  - rewrite (fetchTaskStatus_then_row h r rec row w Hresp Hrow).
    rewrite (classify_failed _ Hst).
    cbn [branch_follow_up branch_text branch_label exec ret doc inflight timers trace].
    rewrite written_result. repeat split.
    eexists. split; [reflexivity|].
    apply Forall_app_2; [by apply guarded_Forall|].
    constructor; [done|]. by apply guarded_Forall.
  - rewrite (fetchTaskStatus_then_rowless h r rec w Hresp Hrow).
    cbn [emit doc inflight timers trace].
    rewrite (result_text_rowless h _ Hrow). repeat split.
    eexists. split; [reflexivity|]. by repeat constructor.
Qed.

Lemma failed_status_writes_no_result_witness :
  is_status_response (status_ok failed_record) failed_record
  /\ result_text "abc123"
       (doc (exec (fetchTaskStatus_then "abc123" (Fulfilled (status_ok failed_record)))
               loading_world))
     = Some "No Result".
Proof.
  assert (is_status_response (status_ok failed_record) failed_record) as Hresp.
  { split; [left|]; reflexivity. }
  split; [exact Hresp|].
  apply (failed_status_writes_no_result "abc123" (status_ok failed_record) failed_record
           loading_world Hresp).
  left; reflexivity.
Defined.

(** C8. For a status response that reports [FAILED] or [NOT FOUND], the
    control of the handle is left as it was: the chain assigns no [disabled]
    property at all. *)
Theorem failed_status_keeps_control
    (h : string) (r : response) (rec : task_record) (w : world) :
  is_status_response r rec ->
  task_status rec = "FAILED" \/ task_status rec = "NOT FOUND" ->
  let w' := exec (fetchTaskStatus_then h (Fulfilled r)) w in
  control_disabled h (doc w') = control_disabled h (doc w)
  /\ exists suffix,
       trace w' = trace w ++ suffix
       /\ Forall (fun e => is_set_disabled e = false) suffix.
Proof.
  intros Hresp Hst w'. subst w'. unfold exec.
  destruct (doc w !! ("ct-" +:+ h)) as [row|] eqn:Hrow.
  - rewrite (fetchTaskStatus_then_row h r rec row w Hresp Hrow).
    rewrite (classify_failed _ Hst).
    cbn [branch_follow_up branch_text branch_label exec ret doc inflight timers trace].
    rewrite written_control. split; [done|].
    eexists. split; [reflexivity|].
    apply Forall_app_2; [by apply guarded_Forall|].
    constructor; [done|]. by apply guarded_Forall.
  - rewrite (fetchTaskStatus_then_rowless h r rec w Hresp Hrow).
    cbn [emit doc inflight timers trace]. split; [done|].
    eexists. split; [reflexivity|]. by repeat constructor.
Qed.

Lemma failed_status_keeps_control_witness :
  is_status_response (Response 404 "NOT FOUND" (Some (JsonTask unknown_record))) unknown_record
  /\ control_disabled "abc123"
       (doc (exec (fetchTaskStatus_then "abc123"
                     (Fulfilled (Response 404 "NOT FOUND" (Some (JsonTask unknown_record)))))
               loading_world))
     = Some true.
Proof.
  assert (is_status_response (Response 404 "NOT FOUND" (Some (JsonTask unknown_record)))
            unknown_record) as Hresp.
  { split; [right|]; reflexivity. }
  split; [exact Hresp|].
  apply (failed_status_keeps_control "abc123" _ unknown_record loading_world Hresp).
  right; reflexivity.
Defined.

(** ** Pending statuses *)

Lemma fetchTaskStatus_then_pending h r rec row w :
  is_status_response r rec ->
  task_status rec ≠ "SUCCESS" ->
  task_status rec ≠ "FAILED" ->
  task_status rec ≠ "NOT FOUND" ->
  doc w !! ("ct-" +:+ h) = Some row ->
  exec (fetchTaskStatus_then h (Fulfilled r)) w
  = World (written h (task_status rec) "Pending" (doc w))
      (inflight w)
      (timers w ++ [Timer 1500 (task_id rec) (task_name rec)])
      (trace w
       ++ (guarded (cells row !! 1%nat)
             (SetInnerText ("ct-" +:+ h, 1%nat) (task_status rec))
           ++ ConsoleLog [JString "Task pending."; JString (task_id rec);
                          JString (task_name rec); JString (task_status rec);
                          of_nullable (task_result rec)]
           :: guarded (cells row !! 4%nat) (SetInnerText ("ct-" +:+ h, 4%nat) "Pending"))
       ++ [SetTimeout 1500 (task_id rec)]).
Proof.
  intros Hresp H1 H2 H3 Hrow. unfold exec.
  rewrite (fetchTaskStatus_then_row h r rec row w Hresp Hrow).
  rewrite (classify_pending _ H1 H2 H3).
  unfold branch_follow_up, branch_text, branch_label, exec, setTimeout.
  cbn [doc inflight timers trace delay timer_task_id]. by rewrite <- app_assoc.
Qed.

(** C1, as stated, fails: asked for [abc123], the server answers with a
    pending record that names task [xyz]; the one follow-up status fetch is
    then issued for [xyz] and none for [abc123]. *)
Lemma pending_follow_up_other_handle :
  is_status_response (status_ok renamed_record) renamed_record
  /\ task_status renamed_record ≠ "SUCCESS"
  /\ task_status renamed_record ≠ "FAILED"
  /\ task_status renamed_record ≠ "NOT FOUND"
  /\ exists w,
       run [Settles 0 (Fulfilled (status_ok renamed_record)); Fires 0]
         (exec (loadTaskStatus "abc123") idle_world) = Some w
       /\ inflight w = [ReqStatus "xyz"]
       /\ filter is_fetch (trace w)
          = [Fetch "GET" "/digest/task/abc123"; Fetch "GET" "/digest/task/xyz"]
       /\ ~ (inflight w = [ReqStatus "abc123"]).
Proof.
  split; [split; [left|]; reflexivity|].
  do 3 (split; [discriminate|]).
  eexists. split; [vm_compute; reflexivity|].
  cbn [inflight trace]. split; [reflexivity|].
  split; [vm_compute; reflexivity | discriminate].
Qed.

(** C1, amended. For a status response whose [task_status] is none of
    [SUCCESS], [FAILED], [NOT FOUND], and with the row of the queried handle
    in the document, the chain writes ["Pending"] into the result cell (when
    the row has one), issues no request itself and schedules exactly one
    timer, of 1500 ms; when that timer fires, exactly one status fetch is
    issued, for the [task_id] of the response (the queried handle whenever
    the server echoes it). *)
Theorem pending_status_schedules_follow_up
    (h : string) (r : response) (rec : task_record) (row : row) (w : world) :
  is_status_response r rec ->
  task_status rec ≠ "SUCCESS" ->
  task_status rec ≠ "FAILED" ->
  task_status rec ≠ "NOT FOUND" ->
  doc w !! ("ct-" +:+ h) = Some row ->
  let w' := exec (fetchTaskStatus_then h (Fulfilled r)) w in
  result_text h (doc w') = (fun _ => "Pending") <$> result_text h (doc w)
  /\ inflight w' = inflight w
  /\ timers w' = timers w ++ [Timer 1500 (task_id rec) (task_name rec)]
  /\ (exists suffix,
        trace w' = trace w ++ suffix ++ [SetTimeout 1500 (task_id rec)]
        /\ Forall (fun e => is_fetch e = false /\ is_set_timeout e = false) suffix)
  /\ (exists w'',
        dispatch (Fires (length (timers w))) w' = Some w''
        /\ inflight w'' = inflight w ++ [ReqStatus (task_id rec)]
        /\ timers w'' = timers w
        /\ filter is_fetch (trace w'')
           = filter is_fetch (trace w') ++ [Fetch "GET" ("/digest/task/" +:+ task_id rec)])
  /\ (task_id rec = h ->
      exists w'',
        dispatch (Fires (length (timers w))) w' = Some w''
        /\ inflight w'' = inflight w ++ [ReqStatus h]).
Proof.
  intros Hresp H1 H2 H3 Hrow w'. subst w'.
  rewrite (fetchTaskStatus_then_pending h r rec row w Hresp H1 H2 H3 Hrow).
  cbn [doc inflight timers trace]. rewrite written_result.
  split; [done|]. split; [done|]. split; [done|]. split; [|split].
  - eexists. split; [reflexivity|].
    apply Forall_app_2; [by apply guarded_Forall|].
    constructor; [done|]. by apply guarded_Forall.
  - eexists. split; [by apply fire_last_timer|].
    cbn [doc inflight timers trace timer_task_id].
    split; [done|]. split; [done|]. by rewrite filter_app.
  - intros <-. eexists. split; [by apply fire_last_timer|]. done.
Qed.

Lemma pending_status_schedules_follow_up_witness :
  is_status_response (status_ok pending_record) pending_record
  /\ timers (exec (fetchTaskStatus_then "abc123" (Fulfilled (status_ok pending_record)))
               loading_world)
     = [Timer 1500 "abc123" "digest"].
Proof.
  assert (is_status_response (status_ok pending_record) pending_record) as Hresp.
  { split; [left|]; reflexivity. }
  split; [exact Hresp|].
  apply (pending_status_schedules_follow_up "abc123" (status_ok pending_record)
           pending_record (sample_row true) loading_world Hresp);
    [discriminate | discriminate | discriminate | reflexivity].
Defined.

(** ** Every way a status chain can run *)

(** Either the [.catch] callback ran (one console error, the control of [h]
    enabled), or the response was a status response, the row of [h] is in the
    document, and the branch of the reported status ran. *)
Lemma fetchTaskStatus_then_cases h fr w :
  (exists err,
     fetchTaskStatus_then h fr w
     = Ok tt (toggled h false
                (emit (ConsoleError [JString "Failed to fetch status"; JString h; JExn err]) w)))
  \/ (exists r rec row suffix,
        fr = Fulfilled r
        /\ is_status_response r rec
        /\ doc w !! ("ct-" +:+ h) = Some row
        /\ fetchTaskStatus_then h fr w
           = Ok tt (exec (branch_follow_up (classify (task_status rec)) h rec)
                      (World (written h (task_status rec)
                                (branch_text (classify (task_status rec)) rec) (doc w))
                         (inflight w) (timers w) (trace w ++ suffix)))).
Proof.
  destruct (transport_failure (ReqStatus h) fr) eqn:Hf.
  { left. by apply fetchTaskStatus_then_failure. }
  destruct fr as [reason|r]; [done|]. cbn [transport_failure] in Hf.
  apply negb_false_iff in Hf.
  destruct (body r) as [[rec|]|] eqn:Hb.
  - assert (is_status_response r rec) as Hresp.
    { split; [|done]. apply orb_true_iff in Hf as [?%Z.eqb_eq | ?%Z.eqb_eq]; auto. }
    destruct (doc w !! ("ct-" +:+ h)) as [row|] eqn:Hrow.
    + right. exists r, rec, row. eexists.
      split; [done|]. split; [done|]. split; [done|].
      by rewrite (fetchTaskStatus_then_row h r rec row w Hresp Hrow).
    + left. eexists. rewrite (fetchTaskStatus_then_rowless h r rec w Hresp Hrow).
      unfold toggled, emit. cbn [doc].
      by rewrite (control_disabled_rowless h _ Hrow).
  - left. eexists. unfold fetchTaskStatus_then, catch. cbn [settle bind ret].
    rewrite Hf. unfold response_json. rewrite Hb.
    cbn [ret fetchTaskStatus_update throw]. apply fetchTaskStatus_catch_spec.
  - left. eexists. unfold fetchTaskStatus_then, catch. cbn [settle bind ret].
    rewrite Hf. unfold response_json. rewrite Hb.
    cbn [throw]. apply fetchTaskStatus_catch_spec.
Qed.

(** A status chain for [h] touches no row but the one of [h]. *)
Lemma fetchTaskStatus_then_other_rows h fr w k :
  k ≠ "ct-" +:+ h ->
  doc (exec (fetchTaskStatus_then h fr) w) !! k = doc w !! k.
Proof.
  intros Hk. unfold exec.
  destruct (fetchTaskStatus_then_cases h fr w)
    as [[err ->] | (r & rec & row & suffix & _ & _ & _ & ->)].
  - by rewrite toggled_other_rows.
  - rewrite branch_follow_up_doc. cbn [doc]. by apply written_other_rows.
Qed.

(** C10. When a pending status reschedules, the timer carries the [task_id]
    of the response body, not the [brokerId] that was asked for: the fetch
    issued when it fires is for that [task_id], and the chain of that fetch
    reads and writes only the row of that [task_id]. *)
Theorem pending_follow_up_uses_response_task_id
    (h : string) (r : response) (rec : task_record) (row : row) (w : world) :
  is_status_response r rec ->
  task_status rec ≠ "SUCCESS" ->
  task_status rec ≠ "FAILED" ->
  task_status rec ≠ "NOT FOUND" ->
  doc w !! ("ct-" +:+ h) = Some row ->
  let w' := exec (fetchTaskStatus_then h (Fulfilled r)) w in
  exists t w'',
    timers w' = timers w ++ [t]
    /\ timer_task_id t = task_id rec
    /\ dispatch (Fires (length (timers w))) w' = Some w''
    /\ inflight w'' = inflight w ++ [ReqStatus (task_id rec)]
    /\ last (trace w'') = Some (Fetch "GET" ("/digest/task/" +:+ task_id rec))
    /\ forall fr k,
         k ≠ "ct-" +:+ task_id rec ->
         doc (exec (chain_then (ReqStatus (task_id rec)) fr) w'') !! k = doc w'' !! k.
Proof.
  intros Hresp H1 H2 H3 Hrow w'. subst w'.
  rewrite (fetchTaskStatus_then_pending h r rec row w Hresp H1 H2 H3 Hrow).
  cbn [doc inflight timers trace].
  eexists (Timer 1500 (task_id rec) (task_name rec)), _.
  split; [done|]. split; [done|].
  split; [by apply fire_last_timer|].
  cbn [doc inflight timers trace timer_task_id].
  split; [done|]. split.
  - match goal with
    | |- last (?l ++ [?a; ?b]) = _ =>
        change (l ++ [a; b]) with (l ++ [a] ++ [b]); rewrite (app_assoc l [a] [b])
    end.
    apply last_snoc.
  - intros fr k Hk. cbn [chain_then]. by apply fetchTaskStatus_then_other_rows.
Qed.

Lemma pending_follow_up_uses_response_task_id_witness :
  is_status_response (status_ok renamed_record) renamed_record
  /\ exists t w'',
       timers (exec (fetchTaskStatus_then "abc123" (Fulfilled (status_ok renamed_record)))
                 loading_world)
       = timers loading_world ++ [t]
       /\ timer_task_id t = "xyz"
       /\ dispatch (Fires (length (timers loading_world)))
            (exec (fetchTaskStatus_then "abc123" (Fulfilled (status_ok renamed_record)))
               loading_world)
          = Some w''
       /\ inflight w'' = inflight loading_world ++ [ReqStatus "xyz"]
       /\ last (trace w'') = Some (Fetch "GET" ("/digest/task/" +:+ "xyz"))
       /\ forall fr k,
            k ≠ "ct-" +:+ "xyz" ->
            doc (exec (chain_then (ReqStatus "xyz") fr) w'') !! k = doc w'' !! k.
Proof.
  assert (is_status_response (status_ok renamed_record) renamed_record) as Hresp.
  { split; [left|]; reflexivity. }
  split; [exact Hresp|].
  apply (pending_follow_up_uses_response_task_id "abc123" (status_ok renamed_record)
           renamed_record (sample_row true) loading_world Hresp);
    [discriminate | discriminate | discriminate | reflexivity].
Defined.

(** ** The missing row *)

(** With the row of the handle in the document, a [SUCCESS] response is
    handled as the specification describes: the result is written and one
    registration is requested. *)
Lemma fetchTaskStatus_then_success h r rec row w :
  is_status_response r rec ->
  task_status rec = "SUCCESS" ->
  doc w !! ("ct-" +:+ h) = Some row ->
  let w' := exec (fetchTaskStatus_then h (Fulfilled r)) w in
  result_text h (doc w') = (fun _ => to_innerText (task_result rec)) <$> result_text h (doc w)
  /\ inflight w' = inflight w ++ [ReqRegister h]
  /\ timers w' = timers w.
Proof.
  intros Hresp Hst Hrow w'. subst w'. unfold exec.
  rewrite (fetchTaskStatus_then_row h r rec row w Hresp Hrow).
  rewrite (classify_success _ Hst).
  unfold branch_follow_up, branch_text, exec, registerFileTransformation, fetch.
  cbn [doc inflight timers trace]. by rewrite written_result.
Qed.

(** C2, the defect. The document has no row for [abc123] and the server
    reports [SUCCESS]: [getTaskStatusCell] is handed [null] and throws, the
    [.catch] callback logs the error, and the registration is never
    requested. *)
Theorem success_without_row_requests_no_registration :
  let w' := exec (fetchTaskStatus_then "abc123" (Fulfilled (status_ok success_record)))
              rowless_world in
  inflight w' = []
  /\ trace w'
     = [ConsoleError
          [JString "Failed to fetch status"; JString "abc123";
           JExn (TypeError "Cannot read properties of null (reading 'cells')")]].
Proof. split; reflexivity. Qed.

(** C7, the defect. [disableTaskLoadBtn] and [enableTaskLoadBtn] check the
    row before they look into it, and a missing cell is skipped everywhere;
    the second [.then] of [fetchTaskStatus] does not check the row: without
    the row of [abc123] it throws a [TypeError], and a pending task is not
    polled again. *)
Theorem status_update_without_row_throws :
  disableTaskLoadBtn "abc123" rowless_world = Ok tt rowless_world
  /\ enableTaskLoadBtn "abc123" rowless_world = Ok tt rowless_world
  /\ fetchTaskStatus_update "abc123" (JsonTask pending_record) rowless_world
     = Throw (TypeError "Cannot read properties of null (reading 'cells')") rowless_world
  /\ timers (exec (fetchTaskStatus_then "abc123" (Fulfilled (status_ok pending_record)))
               rowless_world)
     = [].
Proof. repeat split; reflexivity. Qed.

(** ** One chain at a time *)

Lemma status_chain_footprint h fr w :
  let w' := exec (fetchTaskStatus_then h fr) w in
  (inflight w' = inflight w /\ timers w' = timers w)
  \/ (inflight w' = inflight w ++ [ReqRegister h] /\ timers w' = timers w)
  \/ (exists t, delay t = 1500 /\ inflight w' = inflight w /\ timers w' = timers w ++ [t]).
Proof.
  intros w'. subst w'. unfold exec.
  destruct (fetchTaskStatus_then_cases h fr w)
    as [[err ->] | (r & rec & row & suffix & _ & _ & _ & ->)].
  - left. apply toggled_emit_queues.
  - destruct (classify (task_status rec)); cbn.
    + right; left. done.
    + left. done.
    + right; right. eexists. repeat split; done.
Qed.

Lemma register_chain_footprint h fr w :
  let w' := exec (registerFileTransformation_then h fr) w in
  (inflight w' = inflight w /\ timers w' = timers w)
  \/ (exists r, fr = Fulfilled r /\ status r = 400
                /\ inflight w' = inflight w ++ [ReqStatus h] /\ timers w' = timers w).
Proof.
  intros w'. subst w'.
  destruct (transport_failure (ReqRegister h) fr) eqn:Hf.
  { left. unfold exec.
    destruct (registerFileTransformation_then_failure h fr w Hf) as [err ->].
    apply toggled_emit_queues. }
  destruct fr as [reason|r]; [done|]. cbn [transport_failure] in Hf.
  apply negb_false_iff, orb_true_iff in Hf. destruct Hf as [Hs|Hs].
  - left. unfold exec, registerFileTransformation_then, catch.
    cbn [settle bind ret]. rewrite Hs. unfold response_json.
    destruct (body r) as [j|]; cbn [bind ret throw console_log].
    + done.
    + rewrite registerFileTransformation_catch_spec. apply toggled_emit_queues.
  - right. exists r. apply Z.eqb_eq in Hs. split; [done|]. split; [done|].
    apply (register_400_follow_up h r w Hs).
Qed.

Lemma serial_inflight w i q :
  serial w -> inflight w !! i = Some q ->
  inflight w = [q] /\ timers w = [] /\ delete i (inflight w) = [].
Proof.
  intros [Hout _] Hq. unfold outstanding in Hout.
  destruct (inflight w) as [|q' [|q'' l]]; [done | | simpl in Hout; lia].
  destruct (timers w); [|simpl in Hout; lia].
  destruct i as [|i]; simpl in Hq; [|done]. by inversion Hq.
Qed.

Lemma serial_timers w i t :
  serial w -> timers w !! i = Some t ->
  timers w = [t] /\ inflight w = [] /\ delete i (timers w) = [] /\ delay t = 1500.
Proof.
  intros [Hout Hdelay] Ht. unfold outstanding in Hout.
  destruct (timers w) as [|t' [|t'' l]]; [done | | simpl in Hout; lia].
  destruct (inflight w); [|simpl in Hout; lia].
  destruct i as [|i]; simpl in Ht; [|done]. inversion Ht; subst.
  by inversion Hdelay.
Qed.

Lemma dispatch_serial ev w w' :
  serial w -> dispatch ev w = Some w' -> serial w'.
Proof.
  intros Hs Hd. destruct ev as [i fr | i]; unfold dispatch in Hd.
  - destruct (inflight w !! i) as [q|] eqn:Hq; [|done].
    destruct (serial_inflight w i q Hs Hq) as (_ & Ht & Hdel).
    cbn [mbind option_bind] in Hd. inversion Hd; subst w'; clear Hd.
    rewrite Hdel, Ht. unfold serial, outstanding.
    destruct q as [h|h]; cbn [chain_then].
    + destruct (status_chain_footprint h fr (World (doc w) [] [] (trace w)))
        as [[-> ->] | [[-> ->] | (t & Hdelay & -> & ->)]];
        cbn [inflight timers]; simpl; split; try lia; by repeat constructor.
    + destruct (register_chain_footprint h fr (World (doc w) [] [] (trace w)))
        as [[-> ->] | (r & _ & _ & -> & ->)];
        cbn [inflight timers]; simpl; split; try lia; by repeat constructor.
  - destruct (timers w !! i) as [t|] eqn:Ht; [|done].
    destruct (serial_timers w i t Hs Ht) as (_ & Hi & Hdel & _).
    cbn [mbind option_bind] in Hd. inversion Hd; subst w'; clear Hd.
    rewrite Hdel, Hi. split; [cbn; lia | by constructor].
Qed.

Lemma run_serial evs w w' :
  serial w -> run evs w = Some w' -> serial w'.
Proof.
  revert w. induction evs as [|ev evs IH]; intros w Hs Hr; simpl in Hr.
  - by inversion Hr; subst.
  - destruct (dispatch ev w) as [w1|] eqn:Hd; [|done].
    apply (IH w1); [by apply (dispatch_serial ev w)|done].
Qed.

Lemma loadTaskStatus_serial h w :
  inflight w = [] -> timers w = [] -> serial (exec (loadTaskStatus h) w).
Proof.
  intros Hi Ht. unfold loadTaskStatus, exec, bind. rewrite disableTaskLoadBtn_spec.
  unfold fetchTaskStatus, fetch, serial, outstanding. cbn [inflight timers].
  destruct (toggled_queues h true w) as [-> ->]. rewrite Hi, Ht.
  split; [simpl; lia | constructor].
Qed.

(** C9. In every state the event loop can reach from one call of
    [loadTaskStatus], at most one fetch or timer is pending, hence at most
    one status request is in flight; and when a step leaves a status request
    in flight, that step was either the firing of the 1500 ms timer set by
    the previous status response, or the registration being answered with
    400. *)
Theorem polling_chain_is_serial
    (h : string) (w0 : world) (evs : list event) (w : world) :
  inflight w0 = [] ->
  timers w0 = [] ->
  run evs (exec (loadTaskStatus h) w0) = Some w ->
  (length (filter is_status_request (inflight w)) <= 1)%nat
  /\ (outstanding w <= 1)%nat
  /\ forall ev w' b,
       dispatch ev w = Some w' ->
       ReqStatus b ∈ inflight w' ->
       (exists i t, ev = Fires i /\ timers w !! i = Some t
                    /\ delay t = 1500 /\ timer_task_id t = b)
       \/ (exists i r, ev = Settles i (Fulfilled r)
                       /\ inflight w !! i = Some (ReqRegister b) /\ status r = 400).
Proof.
  intros Hi Ht Hrun.
  assert (serial w) as Hs.
  { apply (run_serial evs _ w (loadTaskStatus_serial h w0 Hi Ht) Hrun). }
  split; [|split].
  - destruct Hs as [Hout _]. unfold outstanding in Hout.
    pose proof (length_filter is_status_request (inflight w)). lia.
  - apply Hs.
  - intros ev w' b Hd Hin. destruct ev as [i fr | i]; unfold dispatch in Hd.
    + destruct (inflight w !! i) as [q|] eqn:Hq; [|done].
      destruct (serial_inflight w i q Hs Hq) as (_ & Htm & Hdel).
      cbn [mbind option_bind] in Hd. inversion Hd; subst w'; clear Hd.
      rewrite Hdel, Htm in Hin. destruct q as [h'|h']; cbn [chain_then] in Hin.
      * exfalso.
        destruct (status_chain_footprint h' fr (World (doc w) [] [] (trace w)))
          as [[Hq' _] | [[Hq' _] | (t & _ & Hq' & _)]];
          rewrite Hq' in Hin; cbn [inflight app] in Hin.
        -- by apply elem_of_nil in Hin.
        -- by apply list_elem_of_singleton in Hin.
        -- by apply elem_of_nil in Hin.
      * destruct (register_chain_footprint h' fr (World (doc w) [] [] (trace w)))
          as [[Hq' _] | (r & -> & Hst & Hq' & _)];
          rewrite Hq' in Hin; cbn [inflight app] in Hin.
        -- by apply elem_of_nil in Hin.
        -- apply list_elem_of_singleton in Hin. inversion Hin; subst b.
           right. by exists i, r.
    + destruct (timers w !! i) as [t|] eqn:Htm; [|done].
      destruct (serial_timers w i t Hs Htm) as (_ & Hinf & Hdel & Hdelay).
      cbn [mbind option_bind] in Hd. inversion Hd; subst w'; clear Hd.
      rewrite Hinf in Hin.
      unfold exec, timer_callback, bind, console_log, fetchTaskStatus, fetch, emit in Hin.
      cbn [inflight app] in Hin.
      apply list_elem_of_singleton in Hin. inversion Hin; subst b.
      left. by exists i, t.
Qed.

Lemma polling_chain_is_serial_witness :
  exists w,
    run [Settles 0 (Fulfilled (status_ok pending_record)); Fires 0;
         Settles 0 (Fulfilled (status_ok success_record)); Settles 0 (Fulfilled conflict)]
      (exec (loadTaskStatus "abc123") idle_world) = Some w
    /\ (outstanding w <= 1)%nat.
Proof.
  eexists. split; [reflexivity|].
  eapply (polling_chain_is_serial "abc123" idle_world
            [Settles 0 (Fulfilled (status_ok pending_record)); Fires 0;
             Settles 0 (Fulfilled (status_ok success_record)); Settles 0 (Fulfilled conflict)]);
    reflexivity.
Defined.

(** ** The button helpers on their own *)

Lemma row_id_inj h h' : "ct-" +:+ h = "ct-" +:+ h' -> h = h'.
Proof. intros Heq. cbn in Heq. by simplify_eq. Qed.

Lemma control_disabled_other h h' b d :
  h' ≠ h ->
  control_disabled h' (update_cell (set_disabled b) ("ct-" +:+ h, 3%nat) d)
  = control_disabled h' d.
Proof.
  intros Hne. unfold control_disabled. rewrite update_cell_lookup_ne; [done|].
  intros Heq. by apply row_id_inj in Heq.
Qed.

Lemma cell_text_set_disabled h h' i b d :
  cell_text h' i (update_cell (set_disabled b) ("ct-" +:+ h, 3%nat) d) = cell_text h' i d.
Proof.
  unfold cell_text. destruct (decide ("ct-" +:+ h = "ct-" +:+ h')) as [Heq|Hne].
  - rewrite <- Heq, update_cell_lookup_eq.
    destruct (d !! ("ct-" +:+ h)) as [r|]; simpl; [|done].
    destruct (decide (i = 3%nat)) as [->|Hi].
    + rewrite list_lookup_alter_eq. by destruct (cells r !! 3%nat).
    + by rewrite list_lookup_alter_ne.
  - by rewrite update_cell_lookup_ne.
Qed.

Lemma toggled_cell_text h h' i b w :
  cell_text h' i (doc (toggled h b w)) = cell_text h' i (doc w).
Proof.
  unfold toggled. destruct (control_disabled h (doc w)); [|done].
  cbn [doc]. apply cell_text_set_disabled.
Qed.

Lemma toggled_control_other h h' b w :
  h' ≠ h -> control_disabled h' (doc (toggled h b w)) = control_disabled h' (doc w).
Proof.
  intros Hne. unfold toggled. destruct (control_disabled h (doc w)); [|done].
  cbn [doc]. by apply control_disabled_other.
Qed.

(** X1. [disableTaskLoadBtn] and [enableTaskLoadBtn] change the [disabled]
    flag of the control of their handle and nothing else: every cell of
    every row keeps its text, the controls of the other handles keep their
    state, and no request or timer is created. *)
Theorem button_helpers_touch_only_the_flag (h h' : string) (i : nat) (w : world) :
  let wd := exec (disableTaskLoadBtn h) w in
  let we := exec (enableTaskLoadBtn h) w in
  cell_text h' i (doc wd) = cell_text h' i (doc w)
  /\ cell_text h' i (doc we) = cell_text h' i (doc w)
  /\ control_disabled h' (doc wd)
     = (if decide (h' = h) then (fun _ => true) <$> control_disabled h' (doc w)
        else control_disabled h' (doc w))
  /\ control_disabled h' (doc we)
     = (if decide (h' = h) then (fun _ => false) <$> control_disabled h' (doc w)
        else control_disabled h' (doc w))
  /\ inflight wd = inflight w /\ timers wd = timers w
  /\ inflight we = inflight w /\ timers we = timers w.
Proof.
  intros wd we. subst wd we. unfold exec.
  rewrite disableTaskLoadBtn_spec, enableTaskLoadBtn_spec.
  rewrite !toggled_cell_text.
  destruct (toggled_queues h true w) as [-> ->].
  destruct (toggled_queues h false w) as [-> ->].
  do 2 (split; [done|]).
  destruct (decide (h' = h)) as [->|Hne].
  - by rewrite !toggled_control.
  - by rewrite !toggled_control_other.
Qed.

Lemma set_disabled_undo b c n :
  firstChild c = Some n -> disabled n = b ->
  set_disabled b (set_disabled (negb b) c) = c.
Proof.
  intros Hc Hb. destruct c as [txt fc]; simpl in *. subst fc.
  destruct n as [name dis]; simpl in *. by subst dis.
Qed.

Lemma set_disabled_round_trip h (d : gmap string row) :
  control_disabled h d = Some false ->
  update_cell (set_disabled false) ("ct-" +:+ h, 3%nat)
    (update_cell (set_disabled true) ("ct-" +:+ h, 3%nat) d) = d.
Proof.
  intros Hc. unfold control_disabled in Hc.
  destruct (d !! ("ct-" +:+ h)) as [r|] eqn:Hr; [|done]. cbn in Hc.
  destruct (cells r !! 3%nat) as [c|] eqn:Hcell; [|done]. cbn in Hc.
  destruct (firstChild c) as [n|] eqn:Hn; [|done]. cbn in Hc.
  apply map_eq; intros k. destruct (decide ("ct-" +:+ h = k)) as [<-|Hne].
  - rewrite !update_cell_lookup_eq, Hr. cbn. f_equal.
    destruct r as [cs]; cbn in *. f_equal.
    apply list_eq; intros j. destruct (decide (j = 3%nat)) as [->|Hj].
    + rewrite !list_lookup_alter_eq, Hcell. cbn. f_equal.
      apply (set_disabled_undo false c n Hn). congruence.
    + by rewrite !list_lookup_alter_ne.
  - by rewrite !update_cell_lookup_ne.
Qed.

(** X2. On a row whose control is enabled, disabling and then enabling the
    control gives back the very document the script started from. *)
Theorem enable_undoes_disable (h : string) (w : world) :
  control_disabled h (doc w) = Some false ->
  doc (exec (enableTaskLoadBtn h) (exec (disableTaskLoadBtn h) w)) = doc w.
Proof.
  intros Hc. unfold exec.
  rewrite disableTaskLoadBtn_spec, enableTaskLoadBtn_spec.
  unfold toggled at 1. rewrite toggled_control, Hc. cbn [fmap option_fmap option_map doc].
  unfold toggled. rewrite Hc. cbn [doc].
  by apply set_disabled_round_trip.
Qed.

Lemma enable_undoes_disable_witness :
  control_disabled "abc123" (doc idle_world) = Some false
  /\ doc (exec (enableTaskLoadBtn "abc123") (exec (disableTaskLoadBtn "abc123") idle_world))
     = doc idle_world.
Proof.
  split; [reflexivity|].
  apply (enable_undoes_disable "abc123" idle_world). reflexivity.
Defined.

(** ** Registration answered with 201 *)

(** X3. When the registration is answered with HTTP 201 and a JSON body, the
    chain logs ["File registered!"] with the handle and the parsed body and
    does nothing else: the document is untouched (the control stays
    disabled), and no request or timer is created. *)
Theorem register_201_only_logs (h : string) (r : response) (j : json) (w : world) :
  status r = 201 ->
  body r = Some j ->
  let w' := exec (registerFileTransformation_then h (Fulfilled r)) w in
  trace w' = trace w ++ [ConsoleLog [JString "File registered!"; JString h; JParsed j]]
  /\ doc w' = doc w
  /\ inflight w' = inflight w
  /\ timers w' = timers w.
Proof.
  intros Hs Hb. unfold registerFileTransformation_then, exec, catch.
  cbn [settle bind ret]. rewrite Hs. cbn [Z.eqb Pos.eqb].
  unfold response_json. rewrite Hb. by cbn.
Qed.

Lemma register_201_only_logs_witness :
  status (Response 201 "CREATED" (Some JsonOther)) = 201
  /\ doc (exec (registerFileTransformation_then "abc123"
                 (Fulfilled (Response 201 "CREATED" (Some JsonOther)))) loading_world)
     = doc loading_world.
Proof.
  split; [reflexivity|].
  apply (register_201_only_logs "abc123" (Response 201 "CREATED" (Some JsonOther)) JsonOther
           loading_world); reflexivity.
Defined.



(** ** Status responses: the remaining cases *)



(** X6. Without the row of the handle, a status response of any
    [task_status] ends in the [.catch] callback: the only effect is one
    console error carrying the [TypeError]; the document is unchanged and no
    request or timer is created. *)
Theorem status_response_without_row
    (h : string) (r : response) (rec : task_record) (w : world) :
  is_status_response r rec ->
  doc w !! ("ct-" +:+ h) = None ->
  let w' := exec (fetchTaskStatus_then h (Fulfilled r)) w in
  doc w' = doc w
  /\ inflight w' = inflight w
  /\ timers w' = timers w
  /\ trace w'
     = trace w
       ++ [ConsoleError
             [JString "Failed to fetch status"; JString h;
              JExn (TypeError "Cannot read properties of null (reading 'cells')")]].
Proof.
  intros Hresp Hrow w'. subst w'. unfold exec.
  by rewrite (fetchTaskStatus_then_rowless h r rec w Hresp Hrow).
Qed.

Lemma status_response_without_row_witness :
  is_status_response (status_ok pending_record) pending_record
  /\ timers (exec (fetchTaskStatus_then "abc123" (Fulfilled (status_ok pending_record)))
               rowless_world)
     = timers rowless_world.
Proof.
  assert (is_status_response (status_ok pending_record) pending_record) as Hresp.
  { split; [left|]; reflexivity. }
  split; [exact Hresp|].
  apply (status_response_without_row "abc123" (status_ok pending_record) pending_record
           rowless_world Hresp).
  reflexivity.
Defined.

(** X7. With the row of the handle in the document, every status response,
    whatever its [task_status], puts that [task_status] into the status cell
    (when the row has one) and leaves the control of the handle as it was:
    no [disabled] property is assigned. *)
Theorem status_response_shows_status
    (h : string) (r : response) (rec : task_record) (row : row) (w : world) :
  is_status_response r rec ->
  doc w !! ("ct-" +:+ h) = Some row ->
  let w' := exec (fetchTaskStatus_then h (Fulfilled r)) w in
  status_text h (doc w') = (fun _ => task_status rec) <$> status_text h (doc w)
  /\ control_disabled h (doc w') = control_disabled h (doc w)
  /\ exists suffix,
       trace w' = trace w ++ suffix
       /\ Forall (fun e => is_set_disabled e = false /\ is_console_error e = false) suffix.
Proof.
  intros Hresp Hrow w'. subst w'. unfold exec.
  rewrite (fetchTaskStatus_then_row h r rec row w Hresp Hrow).
  rewrite branch_follow_up_doc. cbn [doc].
  rewrite written_status, written_control. split; [done|]. split; [done|].
  destruct (classify (task_status rec));
    unfold branch_follow_up, exec, registerFileTransformation, fetch, setTimeout, ret;
    cbn [trace].
  - eexists. rewrite <- app_assoc. split; [reflexivity|].
    apply Forall_app_2; [|by repeat constructor].
    apply Forall_app_2; [by apply guarded_Forall|].
    constructor; [done|]. by apply guarded_Forall.
  - eexists. split; [reflexivity|].
    apply Forall_app_2; [by apply guarded_Forall|].
    constructor; [done|]. by apply guarded_Forall.
  - eexists. rewrite <- app_assoc. split; [reflexivity|].
    apply Forall_app_2; [|by repeat constructor].
    apply Forall_app_2; [by apply guarded_Forall|].
    constructor; [done|]. by apply guarded_Forall.
Qed.

Lemma status_response_shows_status_witness :
  is_status_response (status_ok success_record) success_record
  /\ status_text "abc123"
       (doc (exec (fetchTaskStatus_then "abc123" (Fulfilled (status_ok success_record)))
               loading_world))
     = Some "SUCCESS".
Proof.
  assert (is_status_response (status_ok success_record) success_record) as Hresp.
  { split; [left|]; reflexivity. }
  split; [exact Hresp|].
  apply (status_response_shows_status "abc123" (status_ok success_record) success_record
           (sample_row true) loading_world Hresp).
  reflexivity.
Defined.

(** ** Steps of the event loop *)

Lemma registerFileTransformation_then_cases h fr w :
  (exists err,
     registerFileTransformation_then h fr w
     = Ok tt (toggled h false
                (emit (ConsoleError [JString "Failed to register transformation";
                                     JString h; JExn err]) w)))
  \/ doc (exec (registerFileTransformation_then h fr) w) = doc w.
Proof.
  destruct (transport_failure (ReqRegister h) fr) eqn:Hf.
  { left. by apply registerFileTransformation_then_failure. }
  destruct fr as [reason|r]; [done|]. cbn [transport_failure] in Hf.
  apply negb_false_iff, orb_true_iff in Hf. destruct Hf as [Hs|Hs].
  - unfold exec, registerFileTransformation_then, catch.
    cbn [settle bind ret]. rewrite Hs. unfold response_json.
    destruct (body r) as [j|]; cbn [bind ret throw console_log].
    + by right.
    + left. eexists. apply registerFileTransformation_catch_spec.
  - right. apply Z.eqb_eq in Hs.
    unfold exec, registerFileTransformation_then, catch.
    cbn [settle bind ret]. rewrite Hs. by cbn.
Qed.

Lemma chain_then_other_rows q fr w k :
  k ≠ "ct-" +:+ handle_of q ->
  doc (exec (chain_then q fr) w) !! k = doc w !! k.
Proof.
  intros Hk. destruct q as [h|h]; cbn [chain_then handle_of] in *.
  - by apply fetchTaskStatus_then_other_rows.
  - destruct (registerFileTransformation_then_cases h fr w) as [[err Heq] | ->]; [|done].
    unfold exec. rewrite Heq. by rewrite toggled_other_rows.
Qed.

(** X8. A step of the event loop writes only to the row of the handle whose
    chain it runs: a row that belongs to none of the pending chains is the
    same after the step, and a firing timer changes no row at all. *)
Theorem step_leaves_other_rows (ev : event) (w w' : world) (k : string) :
  dispatch ev w = Some w' ->
  (forall q, q ∈ inflight w -> k ≠ "ct-" +:+ handle_of q) ->
  doc w' !! k = doc w !! k.
Proof.
  intros Hd Hk. destruct ev as [i fr | i]; unfold dispatch in Hd.
  - destruct (inflight w !! i) as [q|] eqn:Hq; [|done].
    cbn [mbind option_bind] in Hd. inversion Hd; subst w'; clear Hd.
    rewrite chain_then_other_rows; [done|].
    apply Hk. by apply list_elem_of_lookup_2 in Hq.
  - destruct (timers w !! i) as [t|] eqn:Ht; [|done].
    cbn [mbind option_bind] in Hd. by inversion Hd.
Qed.

Lemma step_leaves_other_rows_witness :
  dispatch (Settles 0 (Fulfilled (status_ok renamed_record)))
    (World (doc loading_world) [ReqStatus "xyz"] [] [])
  = Some (World (doc loading_world) [] []
            [ConsoleError
               [JString "Failed to fetch status"; JString "xyz";
                JExn (TypeError "Cannot read properties of null (reading 'cells')")]])
  /\ doc (World (doc loading_world) [] []
            [ConsoleError
               [JString "Failed to fetch status"; JString "xyz";
                JExn (TypeError "Cannot read properties of null (reading 'cells')")]])
     !! "ct-abc123"
     = doc (World (doc loading_world) [ReqStatus "xyz"] [] []) !! "ct-abc123".
Proof.
  split; [reflexivity|].
  apply (step_leaves_other_rows (Settles 0 (Fulfilled (status_ok renamed_record)))
           (World (doc loading_world) [ReqStatus "xyz"] [] [])).
  - reflexivity.
  - intros q Hq. apply list_elem_of_singleton in Hq. subst q. discriminate.
Defined.

(** ** How a chain ends, and how it does not *)

Lemma failed_status_queues h r rec w :
  is_status_response r rec ->
  task_status rec = "FAILED" \/ task_status rec = "NOT FOUND" ->
  inflight (exec (fetchTaskStatus_then h (Fulfilled r)) w) = inflight w
  /\ timers (exec (fetchTaskStatus_then h (Fulfilled r)) w) = timers w.
Proof.
  intros Hresp Hst. unfold exec.
  destruct (doc w !! ("ct-" +:+ h)) as [row|] eqn:Hrow.
  - rewrite (fetchTaskStatus_then_row h r rec row w Hresp Hrow).
    by rewrite (classify_failed _ Hst).
  - by rewrite (fetchTaskStatus_then_rowless h r rec w Hresp Hrow).
Qed.

Lemma quiescent_no_step ev w :
  inflight w = [] -> timers w = [] -> dispatch ev w = None.
Proof. intros Hi Ht. destruct ev; unfold dispatch; by rewrite ?Hi, ?Ht. Qed.

(** X9. A chain started by one [loadTaskStatus] is over as soon as its status
    fetch fails in transport or reports [FAILED] / [NOT FOUND]: nothing is
    pending afterwards, so the event loop has no further step to take for
    it. *)
Theorem terminal_outcome_ends_the_chain
    (h : string) (fr : fetch_result) (w0 : world) (evs : list event) (w : world) :
  inflight w0 = [] ->
  timers w0 = [] ->
  transport_failure (ReqStatus h) fr = true
  \/ (exists r rec, fr = Fulfilled r /\ is_status_response r rec
                    /\ (task_status rec = "FAILED" \/ task_status rec = "NOT FOUND")) ->
  run (Settles 0 fr :: evs) (exec (loadTaskStatus h) w0) = Some w ->
  evs = [] /\ inflight w = [] /\ timers w = [].
Proof.
  intros Hi Ht Hterm Hrun.
  unfold loadTaskStatus, exec at 1, bind in Hrun.
  rewrite disableTaskLoadBtn_spec in Hrun.
  unfold fetchTaskStatus, fetch in Hrun.
  destruct (toggled_queues h true w0) as [Hi' Ht']. rewrite Hi', Ht', Hi, Ht in Hrun.
  cbn [run dispatch inflight timers doc trace app lookup list_lookup mbind option_bind
       delete list_delete chain_then] in Hrun.
  set (w1 := World (doc (toggled h true w0)) [] []
               (trace (toggled h true w0) ++ [Fetch "GET" ("/digest/task/" +:+ h)])) in Hrun.
  assert (inflight (exec (fetchTaskStatus_then h fr) w1) = []
          /\ timers (exec (fetchTaskStatus_then h fr) w1) = []) as [Hq1 Hq2].
  { destruct Hterm as [Hf | (r & rec & -> & Hresp & Hst)].
    - unfold exec. destruct (fetchTaskStatus_then_failure h fr w1 Hf) as [err ->].
      apply toggled_emit_queues.
    - apply (failed_status_queues h r rec w1 Hresp Hst). }
  destruct evs as [|ev evs].
  - cbn [run] in Hrun. inversion Hrun; subst w. done.
  - cbn [run] in Hrun. by rewrite (quiescent_no_step ev _ Hq1 Hq2) in Hrun.
Qed.

Lemma terminal_outcome_ends_the_chain_witness :
  run [Settles 0 (Fulfilled (status_ok failed_record))] (exec (loadTaskStatus "abc123") idle_world)
  = Some (exec (fetchTaskStatus_then "abc123" (Fulfilled (status_ok failed_record)))
            (World (doc loading_world) [] []
               [SetDisabled ("ct-abc123", 3%nat) true; Fetch "GET" "/digest/task/abc123"]))
  /\ [] = @nil event.
Proof.
  split; [reflexivity|]. symmetry.
  eapply (terminal_outcome_ends_the_chain "abc123" (Fulfilled (status_ok failed_record))
            idle_world []).
  - reflexivity.
  - reflexivity.
  - right. exists (status_ok failed_record), failed_record.
    split; [reflexivity|]. split; [split; [left|]; reflexivity|]. left; reflexivity.
  - reflexivity.
Defined.

Lemma written_row_present h s t (d : gmap string row) row :
  d !! ("ct-" +:+ h) = Some row ->
  exists row', written h s t d !! ("ct-" +:+ h) = Some row'.
Proof.
  intros Hrow. unfold written. rewrite !update_cell_lookup_eq, Hrow. by eexists.
Qed.

Lemma guarded_filter {A} (p : effect -> bool) (o : option A) e :
  p e = false -> filter p (guarded o e) = [].
Proof.
  intros He. destruct o; cbn [guarded]; [|done].
  rewrite filter_cons. destruct (decide (p e)) as [Hp|_]; [|done].
  by rewrite He in Hp.
Qed.

Lemma register_400_world h r w :
  status r = 400 ->
  exec (registerFileTransformation_then h (Fulfilled r)) w
  = World (doc w) (inflight w ++ [ReqStatus h]) (timers w)
      (trace w ++ [Fetch "GET" ("/digest/task/" +:+ h);
                   ConsoleLog [JString "File registered!"; JString h; JUndefined]]).
Proof.
  intros Hs. unfold registerFileTransformation_then, exec, catch.
  cbn [settle bind ret]. rewrite Hs. cbn. unfold emit. cbn [doc inflight timers trace]. by rewrite <- app_assoc.
Qed.

Lemma fetchTaskStatus_then_success_world h r rec row w :
  is_status_response r rec ->
  task_status rec = "SUCCESS" ->
  doc w !! ("ct-" +:+ h) = Some row ->
  exec (fetchTaskStatus_then h (Fulfilled r)) w
  = World (written h (task_status rec) (to_innerText (task_result rec)) (doc w))
      (inflight w ++ [ReqRegister h])
      (timers w)
      (trace w
       ++ (guarded (cells row !! 1%nat)
             (SetInnerText ("ct-" +:+ h, 1%nat) (task_status rec))
           ++ ConsoleLog [JString "Task complete!"; JString (task_id rec);
                          JString (task_name rec); JString (task_status rec);
                          of_nullable (task_result rec)]
           :: guarded (cells row !! 4%nat)
                (SetInnerText ("ct-" +:+ h, 4%nat) (to_innerText (task_result rec))))
       ++ [Fetch "POST" ("/digest/cp/register/" +:+ h)]).
Proof.
  intros Hresp Hst Hrow. unfold exec.
  rewrite (fetchTaskStatus_then_row h r rec row w Hresp Hrow).
  rewrite (classify_success _ Hst).
  unfold branch_follow_up, branch_text, branch_label, exec, registerFileTransformation, fetch.
  cbn [doc inflight timers trace]. by rewrite <- app_assoc.
Qed.

Lemma success_conflict_round h r rec r400 row w :
  is_status_response r rec ->
  task_status rec = "SUCCESS" ->
  status r400 = 400 ->
  doc w !! ("ct-" +:+ h) = Some row ->
  inflight w = [ReqStatus h] ->
  timers w = [] ->
  exists w' row',
    run [Settles 0 (Fulfilled r); Settles 0 (Fulfilled r400)] w = Some w'
    /\ doc w' !! ("ct-" +:+ h) = Some row'
    /\ inflight w' = [ReqStatus h]
    /\ timers w' = []
    /\ length (filter is_fetch (trace w')) = (length (filter is_fetch (trace w)) + 2)%nat
    /\ length (filter is_set_timeout (trace w')) = length (filter is_set_timeout (trace w)).
Proof.
  intros Hresp Hst H400 Hrow Hi Ht.
  destruct (written_row_present h (task_status rec) (to_innerText (task_result rec))
              (doc w) row Hrow) as [row' Hrow'].
  exists
    (World (written h (task_status rec) (to_innerText (task_result rec)) (doc w))
       [ReqStatus h] []
       (((trace w
          ++ (guarded (cells row !! 1%nat)
                (SetInnerText ("ct-" +:+ h, 1%nat) (task_status rec))
              ++ ConsoleLog [JString "Task complete!"; JString (task_id rec);
                             JString (task_name rec); JString (task_status rec);
                             of_nullable (task_result rec)]
              :: guarded (cells row !! 4%nat)
                   (SetInnerText ("ct-" +:+ h, 4%nat) (to_innerText (task_result rec))))
          ++ [Fetch "POST" ("/digest/cp/register/" +:+ h)])
         ++ [Fetch "GET" ("/digest/task/" +:+ h);
             ConsoleLog [JString "File registered!"; JString h; JUndefined]]))), row'.
  split.
  - cbn [run dispatch]. rewrite Hi, Ht.
    cbn [lookup list_lookup mbind option_bind delete list_delete chain_then].
    rewrite (fetchTaskStatus_then_success_world h r rec row
               (World (doc w) [] [] (trace w)) Hresp Hst Hrow).
    cbn [doc inflight timers trace app lookup list_lookup mbind option_bind
         delete list_delete chain_then].
    by rewrite (register_400_world h r400 _ H400).
  - cbn [doc inflight timers trace]. split; [done|]. split; [done|]. split; [done|].
    rewrite !filter_app, !length_app, !filter_cons, !guarded_filter by done.
    cbn. repeat case_decide; try (exfalso; tauto). cbn. split; lia.
Qed.

(** X10. The 400 fallback of the registration re-polls at once: as long as
    the server keeps answering the status fetch with [SUCCESS] and the
    registration with 400, every round issues one more registration and one
    more status fetch, no timer is ever set in between, and after any number
    of rounds a status fetch is in flight again. *)
Theorem register_conflict_repolls_without_delay
    (h : string) (r r400 : response) (rec : task_record) (n : nat) (row : row) (w : world) :
  is_status_response r rec ->
  task_status rec = "SUCCESS" ->
  status r400 = 400 ->
  doc w !! ("ct-" +:+ h) = Some row ->
  inflight w = [ReqStatus h] ->
  timers w = [] ->
  exists w',
    run (rounds n [Settles 0 (Fulfilled r); Settles 0 (Fulfilled r400)]) w = Some w'
    /\ inflight w' = [ReqStatus h]
    /\ timers w' = []
    /\ length (filter is_fetch (trace w')) = (length (filter is_fetch (trace w)) + 2 * n)%nat
    /\ length (filter is_set_timeout (trace w')) = length (filter is_set_timeout (trace w)).
Proof.
  intros Hresp Hst H400. revert row w.
  induction n as [|n IH]; intros row w Hrow Hi Ht.
  - exists w. cbn [rounds run].
    split; [done|]. split; [done|]. split; [done|]. split; [lia|done].
  - destruct (success_conflict_round h r rec r400 row w Hresp Hst H400 Hrow Hi Ht)
      as (w1 & row1 & Hrun1 & Hrow1 & Hi1 & Ht1 & Hf1 & Hs1).
    destruct (IH row1 w1 Hrow1 Hi1 Ht1) as (w' & Hrun & Hi' & Ht' & Hf' & Hs').
    exists w'. split.
    + cbn [rounds app]. cbn [run] in Hrun1 |- *.
      destruct (dispatch (Settles 0 (Fulfilled r)) w) as [wa|]; [|done].
      cbn [mbind option_bind] in Hrun1 |- *.
      destruct (dispatch (Settles 0 (Fulfilled r400)) wa) as [wb|]; [|done].
      cbn [mbind option_bind] in Hrun1 |- *. inversion Hrun1; subst wb. exact Hrun.
    + split; [done|]. split; [done|]. split; [lia|congruence].
Qed.

Lemma register_conflict_repolls_without_delay_witness :
  is_status_response (status_ok success_record) success_record
  /\ exists w',
       run (rounds 3 [Settles 0 (Fulfilled (status_ok success_record));
                      Settles 0 (Fulfilled conflict)])
         (exec (loadTaskStatus "abc123") idle_world) = Some w'
       /\ inflight w' = [ReqStatus "abc123"]
       /\ timers w' = []
       /\ length (filter is_fetch (trace w'))
          = (length (filter is_fetch (trace (exec (loadTaskStatus "abc123") idle_world)))
             + 2 * 3)%nat
       /\ length (filter is_set_timeout (trace w'))
          = length (filter is_set_timeout (trace (exec (loadTaskStatus "abc123") idle_world))).
Proof.
  assert (is_status_response (status_ok success_record) success_record) as Hresp.
  { split; [left|]; reflexivity. }
  split; [exact Hresp|].
  apply (register_conflict_repolls_without_delay "abc123" (status_ok success_record) conflict
           success_record 3 (sample_row true) (exec (loadTaskStatus "abc123") idle_world) Hresp);
    reflexivity.
Defined.

Lemma pending_round h r rec row w :
  is_status_response r rec ->
  task_status rec ≠ "SUCCESS" ->
  task_status rec ≠ "FAILED" ->
  task_status rec ≠ "NOT FOUND" ->
  task_id rec = h ->
  doc w !! ("ct-" +:+ h) = Some row ->
  inflight w = [ReqStatus h] ->
  timers w = [] ->
  exists w' row',
    run [Settles 0 (Fulfilled r); Fires 0] w = Some w'
    /\ doc w' !! ("ct-" +:+ h) = Some row'
    /\ inflight w' = [ReqStatus h]
    /\ timers w' = []
    /\ length (filter is_fetch (trace w')) = S (length (filter is_fetch (trace w)))
    /\ filter is_set_timeout (trace w')
       = filter is_set_timeout (trace w) ++ [SetTimeout 1500 h].
Proof.
  intros Hresp H1 H2 H3 Hid Hrow Hi Ht.
  destruct (written_row_present h (task_status rec) "Pending" (doc w) row Hrow)
    as [row' Hrow'].
  pose proof (fetchTaskStatus_then_pending h r rec row (World (doc w) [] [] (trace w))
                Hresp H1 H2 H3 Hrow) as Hstep.
  cbn [doc inflight timers trace app] in Hstep.
  eexists _, row'. split.
  - cbn [run dispatch]. rewrite Hi, Ht.
    cbn [lookup list_lookup mbind option_bind delete list_delete chain_then].
    rewrite Hstep.
    cbn [timers doc inflight trace lookup list_lookup mbind option_bind delete list_delete].
    unfold exec, timer_callback, bind, console_log, fetchTaskStatus, fetch, emit.
    cbn [doc inflight timers trace timer_task_id timer_task_name app]. reflexivity.
  - cbn [doc inflight timers trace timer_task_id app]. rewrite Hid.
    split; [done|]. split; [done|]. split; [done|].
    rewrite !filter_app, !length_app, !filter_cons, !guarded_filter by done.
    cbn. repeat case_decide; try (exfalso; tauto). cbn.
    split; [lia|]. by rewrite !app_nil_r.
Qed.

(** X11. Polling has no bound of its own: as long as the server keeps
    reporting a pending status for the handle, every round sets one more
    1500 ms timer and issues one more status fetch, and after any number of
    rounds a status fetch is in flight again. *)
Theorem pending_polling_is_unbounded
    (h : string) (r : response) (rec : task_record) (n : nat) (row : row) (w : world) :
  is_status_response r rec ->
  task_status rec ≠ "SUCCESS" ->
  task_status rec ≠ "FAILED" ->
  task_status rec ≠ "NOT FOUND" ->
  task_id rec = h ->
  doc w !! ("ct-" +:+ h) = Some row ->
  inflight w = [ReqStatus h] ->
  timers w = [] ->
  exists w',
    run (rounds n [Settles 0 (Fulfilled r); Fires 0]) w = Some w'
    /\ inflight w' = [ReqStatus h]
    /\ timers w' = []
    /\ length (filter is_fetch (trace w')) = (length (filter is_fetch (trace w)) + n)%nat
    /\ filter is_set_timeout (trace w')
       = filter is_set_timeout (trace w) ++ replicate n (SetTimeout 1500 h).
Proof.
  intros Hresp H1 H2 H3 Hid. revert row w.
  induction n as [|n IH]; intros row w Hrow Hi Ht.
  - exists w. cbn [rounds run replicate].
    split; [done|]. split; [done|]. split; [done|]. split; [lia|by rewrite app_nil_r].
  - destruct (pending_round h r rec row w Hresp H1 H2 H3 Hid Hrow Hi Ht)
      as (w1 & row1 & Hrun1 & Hrow1 & Hi1 & Ht1 & Hf1 & Hs1).
    destruct (IH row1 w1 Hrow1 Hi1 Ht1) as (w' & Hrun & Hi' & Ht' & Hf' & Hs').
    exists w'. split.
    + cbn [rounds app]. cbn [run] in Hrun1 |- *.
      destruct (dispatch (Settles 0 (Fulfilled r)) w) as [wa|]; [|done].
      cbn [mbind option_bind] in Hrun1 |- *.
      destruct (dispatch (Fires 0) wa) as [wb|]; [|done].
      cbn [mbind option_bind] in Hrun1 |- *. inversion Hrun1; subst wb. exact Hrun.
    + split; [done|]. split; [done|]. split; [lia|].
      rewrite Hs', Hs1. cbn [replicate]. by rewrite <- app_assoc.
Qed.

Lemma pending_polling_is_unbounded_witness :
  is_status_response (status_ok pending_record) pending_record
  /\ exists w',
       run (rounds 2 [Settles 0 (Fulfilled (status_ok pending_record)); Fires 0])
         (exec (loadTaskStatus "abc123") idle_world) = Some w'
       /\ inflight w' = [ReqStatus "abc123"]
       /\ timers w' = []
       /\ length (filter is_fetch (trace w'))
          = (length (filter is_fetch (trace (exec (loadTaskStatus "abc123") idle_world)))
             + 2)%nat
       /\ filter is_set_timeout (trace w')
          = filter is_set_timeout (trace (exec (loadTaskStatus "abc123") idle_world))
            ++ replicate 2 (SetTimeout 1500 "abc123").
Proof.
  assert (is_status_response (status_ok pending_record) pending_record) as Hresp.
  { split; [left|]; reflexivity. }
  split; [exact Hresp|].
  apply (pending_polling_is_unbounded "abc123" (status_ok pending_record) pending_record 2
           (sample_row true) (exec (loadTaskStatus "abc123") idle_world) Hresp);
    [discriminate | discriminate | discriminate | reflexivity..].
Defined.

(** ** Load, fail, retry *)

(** X12. When the status fetch issued by [loadTaskStatus] fails in
    transport, the document is back to what it was before the call, provided
    the control was enabled then: the button that the loader disabled is
    enabled again, no cell was written, and nothing is pending, so the user
    can start over. *)
Theorem failed_load_restores_document
    (h : string) (fr : fetch_result) (w0 w : world) :
  inflight w0 = [] ->
  timers w0 = [] ->
  control_disabled h (doc w0) = Some false ->
  transport_failure (ReqStatus h) fr = true ->
  run [Settles 0 fr] (exec (loadTaskStatus h) w0) = Some w ->
  doc w = doc w0 /\ inflight w = [] /\ timers w = [].
Proof.
  intros Hi Ht Hc Hf Hrun.
  unfold loadTaskStatus, exec at 1, bind in Hrun.
  rewrite disableTaskLoadBtn_spec in Hrun.
  unfold fetchTaskStatus, fetch in Hrun.
  destruct (toggled_queues h true w0) as [Hi' Ht']. rewrite Hi', Ht', Hi, Ht in Hrun.
  cbn [run dispatch inflight timers doc trace app lookup list_lookup mbind option_bind
       delete list_delete chain_then] in Hrun.
  match type of Hrun with
  | Some (exec _ ?w1) = _ =>
      destruct (fetchTaskStatus_then_failure h fr w1 Hf) as [err Heq];
      unfold exec in Hrun; rewrite Heq in Hrun
  end.
  inversion Hrun; subst w; clear Hrun.
  split; [|apply toggled_emit_queues].
  unfold toggled at 1. cbn [emit doc].
  rewrite toggled_control, Hc. cbn [fmap option_fmap option_map].
  unfold toggled. rewrite Hc. cbn [doc inflight timers trace].
  by apply set_disabled_round_trip.
Qed.

Lemma failed_load_restores_document_witness :
  transport_failure (ReqStatus "abc123") server_error = true
  /\ doc (exec (fetchTaskStatus_then "abc123" server_error)
            (World (doc loading_world) [] []
               [SetDisabled ("ct-abc123", 3%nat) true; Fetch "GET" "/digest/task/abc123"]))
     = doc idle_world.
Proof.
  split; [reflexivity|].
  eapply (failed_load_restores_document "abc123" server_error idle_world); reflexivity.
Defined.

(** ** The sleeper page *)

Module SleeperFacts.
Import Sleeper.

Lemma list_find_alter {A} (P : A -> Prop) `{!∀ x, Decision (P x)} (f : A -> A)
    (l : list A) (i : nat) :
  (forall x, P (f x) <-> P x) ->
  list_find P (alter f i l)
  = (fun jx => (jx.1, if decide (jx.1 = i) then f jx.2 else jx.2)) <$> list_find P l.
Proof.
  intros Hf. revert i. induction l as [|x l IH]; intros i; [done|].
  destruct i as [|i]; cbn [alter list_alter list_find].
  - destruct (decide (P x)) as [Hx|Hx].
    + rewrite decide_True by (by apply Hf). done.
    + rewrite decide_False by (by rewrite Hf).
      destruct (list_find P l) as [[j y]|]; [|done]. cbn. by rewrite decide_False.
  - destruct (decide (P x)) as [Hx|Hx]; [done|].
    change (list_find P (alter f i l)) with (list_find P (list_alter f i l)) in IH.
    rewrite IH. destruct (list_find P l) as [[j y]|]; [|done]. cbn.
    destruct (decide (j = i)) as [->|Hj].
    + by rewrite decide_True.
    + rewrite decide_False; [done|lia].
Qed.



Lemma find_row_Some id p b i :
  find_row id p = Some (b, i) ->
  exists tb r, p !! b = Some tb /\ rows tb !! i = Some r /\ row_id r = id.
Proof.
  unfold find_row. intros Hf.
  destruct (list_find _ p) as [[b' tb]|] eqn:Hb; [|done]. cbn in Hf.
  destruct (list_find _ (rows tb)) as [[i' r]|] eqn:Hi; [|done]. cbn in Hf.
  inversion Hf; subst b' i'; clear Hf.
  apply list_find_Some in Hb as (Hb & _ & _).
  apply list_find_Some in Hi as (Hi & Hr & _).
  by exists tb, r.
Qed.

Lemma find_row_None id p b tb :
  find_row id p = None -> p !! b = Some tb ->
  Forall (fun r => row_id r ≠ id) (rows tb).
Proof.
  unfold find_row. intros Hf Htb.
  destruct (list_find _ p) as [[b' tb']|] eqn:Hb.
  - cbn in Hf. apply list_find_Some in Hb as (_ & Hex & _).
    destruct (list_find _ (rows tb')) as [[i r]|] eqn:Hi; [done|].
    apply list_find_None in Hi. apply Exists_exists in Hex as (r & Hin & Hr).
    rewrite Forall_forall in Hi. by destruct (Hi r Hin).
  - apply list_find_None in Hb. rewrite Forall_forall in Hb.
    apply list_elem_of_lookup_2 in Htb. specialize (Hb tb Htb).
    apply Forall_forall. intros r Hin Hr. apply Hb.
    apply Exists_exists. by exists r.
Qed.

(** After a row with a fresh id is appended to a body, that row is the one
    [getElementById] finds. *)
Lemma find_row_appended id p b tb html :
  find_row id p = None -> p !! b = Some tb ->
  find_row id (<[b := TBody (body_id tb) (rows tb ++ [TRow id html])]> p)
  = Some (b, length (rows tb)).
Proof.
  intros Hnone Htb. unfold find_row.
  assert (b < length p)%nat as Hlen by (by apply lookup_lt_Some in Htb).
  assert (list_find (fun tb0 => Exists (fun r => row_id r = id) (rows tb0))
            (<[b := TBody (body_id tb) (rows tb ++ [TRow id html])]> p)
          = Some (b, TBody (body_id tb) (rows tb ++ [TRow id html]))) as ->.
  { apply list_find_Some. split; [by apply list_lookup_insert_eq|]. split.
    - cbn [rows]. apply Exists_app. right. by constructor.
    - intros j y Hj Hlt. rewrite list_lookup_insert_ne in Hj by lia.
      pose proof (find_row_None id p j y Hnone Hj) as Hall.
      intros Hex. apply Exists_exists in Hex as (r & Hin & Hr).
      rewrite Forall_forall in Hall. by apply (Hall r Hin). }
  cbn [mbind option_bind rows].
  assert (list_find (fun r => row_id r = id) (rows tb ++ [TRow id html])
          = Some (length (rows tb), TRow id html)) as ->.
  { apply list_find_Some. split; [by apply list_lookup_middle|]. split; [done|].
    intros j y Hj Hlt. rewrite lookup_app_l in Hj by done.
    pose proof (find_row_None id p b tb Hnone Htb) as Hall.
    rewrite Forall_forall in Hall. apply Hall. by apply list_elem_of_lookup_2 in Hj. }
  done.
Qed.

Lemma row_count_insert p b tb tb' k :
  p !! b = Some tb ->
  length (rows tb') = (length (rows tb) + k)%nat ->
  row_count (<[b := tb']> p) = (row_count p + k)%nat.
Proof.
  assert (forall y q, row_count (y :: q) = (length (rows y) + row_count q)%nat) as Hc by done.
  revert b. induction p as [|x p IH]; intros b Hb Hlen; [done|].
  destruct b as [|b]; cbn in Hb.
  - inversion Hb; subst x.
    change (<[0%nat:=tb']> (tb :: p)) with (tb' :: p). rewrite !Hc. lia.
  - change (<[S b:=tb']> (x :: p)) with (x :: <[b:=tb']> p).
    rewrite !Hc, (IH b Hb Hlen). lia.
Qed.

Lemma alter_insert {A} (f : A -> A) (l : list A) i x :
  l !! i = Some x -> alter f i l = <[i := f x]> l.
Proof.
  revert i. induction l as [|y l IH]; intros i Hi; [done|].
  destruct i as [|i]; cbn in *.
  - by inversion Hi.
  - f_equal. by apply IH.
Qed.


Lemma find_body_Some id p b :
  find_body id p = Some b -> exists tb, p !! b = Some tb.
Proof.
  unfold find_body. intros Hf.
  destruct (list_find _ p) as [[b' tb]|] eqn:Hb; [|done]. cbn in Hf.
  inversion Hf; subst b'. apply list_find_Some in Hb as (Hb & _). by exists tb.
Qed.

(** The page after [getTableRow] appended a row of id [id] to body [b]. *)
Lemma insert_and_name id b tb s :
  page s !! b = Some tb ->
  sbind (insertRow (Some b)) (fun r => sbind (assign_id r id) (fun _ => sret r)) s
  = Done (b, length (rows tb))
      (State (<[b := TBody (body_id tb) (rows tb ++ [TRow id ""])]> (page s))
         (pending s) (timeouts s) (sent s) (console s)).
Proof.
  intros Htb. unfold sbind, insertRow, assign_id, sret, update_row.
  rewrite Htb. cbn [from_option page pending timeouts sent console fst snd].
  f_equal. f_equal.
  rewrite (alter_insert _ (page s) b tb Htb).
  rewrite (alter_insert _ _ b (TBody (body_id tb) (rows tb ++ [TRow "" ""]))).
  2:{ apply list_lookup_insert_eq. by apply lookup_lt_Some in Htb. }
  rewrite list_insert_insert_eq. cbn [body_id rows]. f_equal. f_equal.
  rewrite alter_app_r_alt by done. by rewrite Nat.sub_diag.
Qed.



Lemma find_body_alter id f b p :
  (forall tb, body_id (f tb) = body_id tb) ->
  find_body id (alter f b p) = find_body id p.
Proof.
  intros Hf. unfold find_body.
  rewrite (list_find_alter (fun tb => body_id tb = id)).
  2:{ intros tb. by rewrite Hf. }
  by destruct (list_find _ p) as [[j tb]|].
Qed.


Lemma find_body_insert id b tb rs p :
  p !! b = Some tb ->
  find_body id (<[b := TBody (body_id tb) rs]> p) = find_body id p.
Proof.
  intros Htb.
  rewrite <- (alter_insert (fun tb0 => TBody (body_id tb0) rs) p b tb Htb).
  by apply find_body_alter.
Qed.

(** What [getTableRow] does, case by case. *)
Lemma getTableRow_found rowId tableBodyId rowIdPrefix ref s :
  rowId ≠ "" ->
  find_row (rowIdPrefix +:+ "-" +:+ rowId) (page s) = Some ref ->
  getTableRow rowId tableBodyId rowIdPrefix s = Done ref s.
Proof.
  intros Hne Hf. destruct rowId as [|a rowId]; [done|].
  unfold getTableRow, sbind, getRowById. by rewrite Hf.
Qed.

Lemma getTableRow_not_found rowId tableBodyId rowIdPrefix s :
  rowId = "" \/ find_row (rowIdPrefix +:+ "-" +:+ rowId) (page s) = None ->
  getTableRow rowId tableBodyId rowIdPrefix s
  = sbind (insertRow (find_body tableBodyId (page s)))
      (fun r => sbind (assign_id r (rowIdPrefix +:+ "-" +:+ rowId)) (fun _ => sret r)) s.
Proof.
  intros Hcase. unfold getTableRow.
  destruct rowId as [|a rowId].
  - reflexivity.
  - destruct Hcase as [?|Hf]; [done|].
    unfold sbind at 1, getRowById. rewrite Hf. reflexivity.
Qed.



Lemma getTableRow_without_body_throws_aux rowId tableBodyId rowIdPrefix s :
  rowId = "" \/ find_row (rowIdPrefix +:+ "-" +:+ rowId) (page s) = None ->
  find_body tableBodyId (page s) = None ->
  getTableRow rowId tableBodyId rowIdPrefix s
  = Raise (TypeError "Cannot read properties of null (reading 'insertRow')") s.
Proof.
  intros Hcase Hb. rewrite (getTableRow_not_found _ _ _ _ Hcase), Hb. reflexivity.
Qed.



Lemma getTableRow_nonempty_spec rowId tableBodyId rowIdPrefix b s :
  rowId ≠ "" ->
  find_body tableBodyId (page s) = Some b ->
  exists ref page1 row,
    getTableRow rowId tableBodyId rowIdPrefix s
    = Done ref (State page1 (pending s) (timeouts s) (sent s) (console s))
    /\ find_row (rowIdPrefix +:+ "-" +:+ rowId) page1 = Some ref
    /\ row_at ref page1 = Some row
    /\ find_body tableBodyId page1 = Some b
    /\ row_count page1
       = (row_count (page s)
          + match find_row (rowIdPrefix +:+ "-" +:+ rowId) (page s) with
            | Some _ => 0
            | None => 1
            end)%nat.
Proof.
  intros Hne Hb.
  destruct (find_row (rowIdPrefix +:+ "-" +:+ rowId) (page s)) as [[b' i]|] eqn:Hf.
  - destruct (find_row_Some _ _ _ _ Hf) as (tb & r & Htb & Hr & _).
    exists (b', i), (page s), r. split; [|split; [done|split; [|split; [done|]]]].
    + rewrite (getTableRow_found _ _ _ _ _ Hne Hf). by destruct s.
    + unfold row_at. cbn [fst snd]. by rewrite Htb.
    + lia.
  - destruct (find_body_Some _ _ _ Hb) as [tb Htb].
    eexists _, _, (TRow (rowIdPrefix +:+ "-" +:+ rowId) "").
    split; [|split; [|split; [|split; [by rewrite find_body_insert|]]]].
    + rewrite (getTableRow_not_found rowId tableBodyId rowIdPrefix s) by auto.
      rewrite Hb. by apply insert_and_name.
    + by apply find_row_appended.
    + unfold row_at. cbn [fst snd].
      rewrite list_lookup_insert_eq by (by apply lookup_lt_Some in Htb).
      cbn. by apply list_lookup_middle.
    + apply (row_count_insert _ _ tb); [done|].
      cbn [rows]. rewrite length_app. cbn. lia.
Qed.

(** X15. For a non-empty row id, [getTableRow] is idempotent: a second call
    with the same arguments returns the row the first call returned and
    changes nothing, whether the first call found the row or appended it. *)
Theorem getTableRow_idempotent
    (rowId tableBodyId rowIdPrefix : string) (ref : nat * nat) (s s1 : state) :
  rowId ≠ "" ->
  getTableRow rowId tableBodyId rowIdPrefix s = Done ref s1 ->
  getTableRow rowId tableBodyId rowIdPrefix s1 = Done ref s1.
Proof.
  intros Hne Hfirst. apply getTableRow_found; [done|].
  destruct (find_row (rowIdPrefix +:+ "-" +:+ rowId) (page s)) as [ref0|] eqn:Hf.
  - rewrite (getTableRow_found _ _ _ _ _ Hne Hf) in Hfirst.
    inversion Hfirst; subst. done.
  - destruct (find_body tableBodyId (page s)) as [b|] eqn:Hb.
    + destruct (getTableRow_nonempty_spec rowId tableBodyId rowIdPrefix b s Hne Hb)
        as (ref' & page1 & row & Heq & Hfind & _).
      rewrite Heq in Hfirst. inversion Hfirst; subst. done.
    + rewrite (getTableRow_without_body_throws_aux rowId tableBodyId rowIdPrefix s) in Hfirst;
        [done | by right | done].
Qed.

Lemma getTableRow_idempotent_witness :
  "abc" ≠ ""
  /\ getTableRow "abc" "tasks" "data" (State [TBody "tasks" [TRow "data-abc" ""]] [] [] [] [])
     = Done (0%nat, 0%nat) (State [TBody "tasks" [TRow "data-abc" ""]] [] [] [] []).
Proof.
  split; [discriminate|].
  apply (getTableRow_idempotent "abc" "tasks" "data" (0%nat, 0%nat) empty_page);
    [discriminate | reflexivity].
Defined.














End SleeperFacts.

(** ** A [SUCCESS] response with the row in place *)

(** X21. With the row of the handle in the document, a [SUCCESS] response
    puts [task_result] into the result cell (when the row has one; [null]
    shows as the empty text), issues exactly one request, the registration
    POST for the queried handle, and sets no timer. *)
Theorem success_with_row_registers_once
    (h : string) (r : response) (rec : task_record) (row : row) (w : world) :
  is_status_response r rec ->
  task_status rec = "SUCCESS" ->
  doc w !! ("ct-" +:+ h) = Some row ->
  let w' := exec (fetchTaskStatus_then h (Fulfilled r)) w in
  result_text h (doc w') = (fun _ => to_innerText (task_result rec)) <$> result_text h (doc w)
  /\ inflight w' = inflight w ++ [ReqRegister h]
  /\ timers w' = timers w
  /\ filter is_fetch (trace w')
     = filter is_fetch (trace w) ++ [Fetch "POST" ("/digest/cp/register/" +:+ h)]
  /\ filter is_set_timeout (trace w') = filter is_set_timeout (trace w).
Proof.
  intros Hresp Hst Hrow w'. subst w'.
  rewrite (fetchTaskStatus_then_success_world h r rec row w Hresp Hst Hrow).
  cbn [doc inflight timers trace]. rewrite written_result.
  split; [done|]. split; [done|]. split; [done|].
  rewrite !filter_app, !filter_cons, !guarded_filter by done.
  cbn. repeat case_decide; try (exfalso; tauto). cbn.
  by rewrite !app_nil_r.
Qed.

Lemma success_with_row_registers_once_witness :
  is_status_response (status_ok success_record) success_record
  /\ inflight (exec (fetchTaskStatus_then "abc123" (Fulfilled (status_ok success_record)))
                 loading_world)
     = inflight loading_world ++ [ReqRegister "abc123"].
Proof.
  assert (is_status_response (status_ok success_record) success_record) as Hresp.
  { split; [left|]; reflexivity. }
  split; [exact Hresp|].
  apply (success_with_row_registers_once "abc123" (status_ok success_record) success_record
           (sample_row true) loading_world Hresp); reflexivity.
Defined.
